(** * BIM-Viewer: the component registry and the spatial-interaction engine

    A shallow embedding of the viewer's state handlers (App.jsx), of the
    IFC decoding loop, of the explode, clipping and measurement effects and
    of the upload handler (IFCViewer.jsx), followed by the properties the
    specification states about them.

    - JavaScript numbers are IEEE 754 binary64 values: they are Rocq's
      primitive floats, whose operations are the same ones.  Entity
      identifiers (expressIDs), type codes and file sizes are integers, in [Z].
    - Of three.js, the methods of [Vector3], [Box3] and [Plane] the viewer
      calls are written out; the scene graph's world transform of an object is
      a parameter of the explode effect.
    - React state is passed explicitly: a handler is a function from state to
      state, an effect a function run after the render that changed one of its
      dependencies, and the awaited [loadIFCFile] a continuation.
    - A component owns its mesh (the specification's exclusive geometry
      handle): the mesh is a field of the component record. *)

From Stdlib Require Import Floats ZArith Bool List String Ascii Lia.
From Stdlib Require Import DecimalString.
From Stdlib Require Import Sorted.
Import ListNotations.

(** ** JavaScript numbers *)

Module JS.

Local Open Scope float_scope.

Definition number := float.

(** [Boolean(x)] of a number: [0], [-0] and [NaN] are falsy. *)
Definition truthy (v : number) : bool :=
  negb (PrimFloat.eqb v 0 || PrimFloat.is_nan v).

(** [a || b] on numbers. *)
Definition or_else (a b : number) : number :=
  if truthy a then a else b.

(** [a > b]. *)
Definition gt (a b : number) : bool := PrimFloat.ltb b a.

(** [Math.min] and [Math.max]: a NaN operand gives NaN, and [-0] counts as
    smaller than [+0]. *)
Definition min (a b : number) : number :=
  if PrimFloat.is_nan a || PrimFloat.is_nan b then PrimFloat.nan
  else if PrimFloat.ltb b a then b
  else if PrimFloat.ltb a b then a
  else if PrimFloat.get_sign a then a else b.

Definition max (a b : number) : number :=
  if PrimFloat.is_nan a || PrimFloat.is_nan b then PrimFloat.nan
  else if PrimFloat.ltb a b then b
  else if PrimFloat.ltb b a then a
  else if PrimFloat.get_sign a then b else a.

(** [Object.is] on numbers, the comparison React applies to effect
    dependencies: NaN is itself, and the two zeros differ. *)
Definition same_value (a b : number) : bool := PrimFloat.Leibniz.eqb a b.


(** A coordinate that is a zero of either sign. *)
Definition is_zero (v : number) : Prop := PrimFloat.eqb v 0 = true.

End JS.

(** ** The parts of three.js the viewer calls *)

Module Vector3.

Local Open Scope float_scope.

Record t := mk { x : JS.number; y : JS.number; z : JS.number }.

(** [new THREE.Vector3()] *)
Definition zero : t := mk 0 0 0.

Definition clone (v : t) : t := mk (x v) (y v) (z v).

Definition add (a b : t) : t :=
  mk (x a + x b) (y a + y b) (z a + z b).

Definition addVectors := add.

Definition subVectors (a b : t) : t :=
  mk (x a - x b) (y a - y b) (z a - z b).

Definition multiplyScalar (v : t) (s : JS.number) : t :=
  mk (x v * s) (y v * s) (z v * s).

Definition divideScalar (v : t) (s : JS.number) : t :=
  multiplyScalar v (1 / s).

Definition length (v : t) : JS.number :=
  PrimFloat.sqrt (x v * x v + y v * y v + z v * z v).

(** [normalize() { return this.divideScalar(this.length() || 1) }] *)
Definition normalize (v : t) : t :=
  divideScalar v (JS.or_else (length v) 1).

Definition distanceToSquared (a b : t) : JS.number :=
  let dx := x a - x b in
  let dy := y a - y b in
  let dz := z a - z b in
  dx * dx + dy * dy + dz * dz.

Definition distanceTo (a b : t) : JS.number :=
  PrimFloat.sqrt (distanceToSquared a b).

Definition min (a b : t) : t :=
  mk (JS.min (x a) (x b)) (JS.min (y a) (y b)) (JS.min (z a) (z b)).

Definition max (a b : t) : t :=
  mk (JS.max (x a) (x b)) (JS.max (y a) (y b)) (JS.max (z a) (z b)).


(** Every coordinate is a zero (of either sign): the zero vector. *)
Definition is_zero (v : t) : Prop :=
  JS.is_zero (x v) /\ JS.is_zero (y v) /\ JS.is_zero (z v).



End Vector3.

Module Box3.

Local Open Scope float_scope.

Record t := mk { min : Vector3.t; max : Vector3.t }.

(** [new THREE.Box3()]: the empty box. *)
Definition empty : t :=
  mk (Vector3.mk infinity infinity infinity)
     (Vector3.mk neg_infinity neg_infinity neg_infinity).

Definition isEmpty (b : t) : bool :=
  PrimFloat.ltb (Vector3.x (max b)) (Vector3.x (min b))
  || PrimFloat.ltb (Vector3.y (max b)) (Vector3.y (min b))
  || PrimFloat.ltb (Vector3.z (max b)) (Vector3.z (min b)).

Definition expandByPoint (b : t) (p : Vector3.t) : t :=
  mk (Vector3.min (min b) p) (Vector3.max (max b) p).

Definition setFromPoints (ps : list Vector3.t) : t :=
  fold_left expandByPoint ps empty.

Definition union (a b : t) : t :=
  mk (Vector3.min (min a) (min b)) (Vector3.max (max a) (max b)).

Definition getCenter (b : t) : Vector3.t :=
  if isEmpty b then Vector3.zero
  else Vector3.multiplyScalar (Vector3.addVectors (min b) (max b)) 0.5.

Definition getSize (b : t) : Vector3.t :=
  if isEmpty b then Vector3.zero
  else Vector3.subVectors (max b) (min b).

(** The eight corners, in the order [Box3.applyMatrix4] visits them. *)
Definition corners (b : t) : list Vector3.t :=
  let lo := min b in
  let hi := max b in
  [ Vector3.mk (Vector3.x lo) (Vector3.y lo) (Vector3.z lo);
    Vector3.mk (Vector3.x lo) (Vector3.y lo) (Vector3.z hi);
    Vector3.mk (Vector3.x lo) (Vector3.y hi) (Vector3.z lo);
    Vector3.mk (Vector3.x lo) (Vector3.y hi) (Vector3.z hi);
    Vector3.mk (Vector3.x hi) (Vector3.y lo) (Vector3.z lo);
    Vector3.mk (Vector3.x hi) (Vector3.y lo) (Vector3.z hi);
    Vector3.mk (Vector3.x hi) (Vector3.y hi) (Vector3.z lo);
    Vector3.mk (Vector3.x hi) (Vector3.y hi) (Vector3.z hi) ].

(** [applyMatrix4], for the point transformation [f] a matrix stands for. *)
Definition applyMatrix4 (b : t) (f : Vector3.t -> Vector3.t) : t :=
  if isEmpty b then b else setFromPoints (map f (corners b)).

End Box3.

Module Plane.

Local Open Scope float_scope.

(** [new THREE.Plane(normal, constant)] *)
Record t := mk { normal : Vector3.t; constant : JS.number }.

End Plane.

(** ** Scene objects *)

Module Material.

(** The fields of a three.js material the viewer writes.  A new material
    has [clippingPlanes = null]. *)
Record t := mk {
  clippingPlanes : option (list Plane.t);
  needsUpdate : bool;
  wireframe : bool
}.

Definition set_clippingPlanes (ps : list Plane.t) (m : t) : t :=
  mk (Some ps) (needsUpdate m) (wireframe m).

Definition set_needsUpdate (b : bool) (m : t) : t :=
  mk (clippingPlanes m) b (wireframe m).

End Material.

(** [mesh.material] is one material or an array of them. *)
Inductive MaterialSlot :=
| SingleMaterial (mat : Material.t)
| MaterialArray (mats : list Material.t).

(** [Array.isArray(m) ? m : [m]] *)
Definition materialsOf (slot : MaterialSlot) : list Material.t :=
  match slot with
  | SingleMaterial mat => [mat]
  | MaterialArray mats => mats
  end.

(** [materials.forEach(f)] written back into the slot it came from. *)
Definition forEachMaterial (f : Material.t -> Material.t) (slot : MaterialSlot)
  : MaterialSlot :=
  match slot with
  | SingleMaterial mat => SingleMaterial (f mat)
  | MaterialArray mats => MaterialArray (map f mats)
  end.

Module BufferGeometry.

(** A geometry: its vertex positions and the cached local bounding box
    ([null] until [computeBoundingBox] has run). *)
Record t := mk {
  vertices : list Vector3.t;
  boundingBox : option Box3.t
}.

Definition computeBoundingBox (g : t) : t :=
  mk (vertices g) (Some (Box3.setFromPoints (vertices g))).

(** [if (!g.boundingBox) g.computeBoundingBox()] *)
Definition ensureBoundingBox (g : t) : t :=
  match boundingBox g with
  | Some _ => g
  | None => computeBoundingBox g
  end.

(** The box read after [ensureBoundingBox]. *)
Definition box (g : t) : Box3.t :=
  match boundingBox g with
  | Some b => b
  | None => Box3.setFromPoints (vertices g)
  end.

End BufferGeometry.

Module Object3D.

(** A scene object.  [expressID] is [userData.expressID]. *)
Record t := mk {
  isMesh : bool;
  position : Vector3.t;
  geometry : option BufferGeometry.t;
  material : option MaterialSlot;
  expressID : option Z
}.

Definition set_position (p : Vector3.t) (o : t) : t :=
  mk (isMesh o) p (geometry o) (material o) (expressID o).

Definition set_geometry (g : option BufferGeometry.t) (o : t) : t :=
  mk (isMesh o) (position o) g (material o) (expressID o).

Definition set_material (m : option MaterialSlot) (o : t) : t :=
  mk (isMesh o) (position o) (geometry o) m (expressID o).

End Object3D.

(** ** Components (the objects [loadIFCFile] pushes) *)

Record Component := mkComponent {
  id : Z;
  name : string;
  type : string;
  mesh : option Object3D.t;
  visible : bool;
  highlighted : bool;
  initialPosition : option Vector3.t
}.

(** [{ ...comp, visible: v }] *)
Definition with_visible (v : bool) (comp : Component) : Component :=
  mkComponent (id comp) (name comp) (type comp) (mesh comp) v
              (highlighted comp) (initialPosition comp).

(** [{ ...comp, highlighted: h }] *)
Definition with_highlighted (h : bool) (comp : Component) : Component :=
  mkComponent (id comp) (name comp) (type comp) (mesh comp) (visible comp)
              h (initialPosition comp).

(** The component with its mesh object mutated by [f]. *)
Definition onMesh (f : Object3D.t -> Object3D.t) (comp : Component) : Component :=
  mkComponent (id comp) (name comp) (type comp) (option_map f (mesh comp))
              (visible comp) (highlighted comp) (initialPosition comp).

(** ** App.jsx: the component list and the explode amount *)

Module App.

Local Open Scope float_scope.

Record state := mk {
  components : list Component;
  isPanelOpen : bool;
  explodeAmount : JS.number
}.

(** [useState([])], [useState(true)], [useState(0)] *)
Definition initial : state := mk [] true 0.

Definition setComponents (f : list Component -> list Component) (st : state)
  : state :=
  mk (f (components st)) (isPanelOpen st) (explodeAmount st).

(** The state setter handed to [IFCViewer] as [setExplodeAmount]. *)
Definition setExplodeAmount (value : JS.number) (st : state) : state :=
  mk (components st) (isPanelOpen st) value.

Definition toggleVisible (componentId : Z) (prevComponents : list Component)
  : list Component :=
  map (fun comp =>
         if Z.eqb (id comp) componentId
         then with_visible (negb (visible comp)) comp
         else comp)
      prevComponents.

Definition handleComponentToggle (componentId : Z) : state -> state :=
  setComponents (toggleVisible componentId).

Definition toggleHighlight (componentId : Z) (prevComponents : list Component)
  : list Component :=
  map (fun comp =>
         if Z.eqb (id comp) componentId
         then with_highlighted (negb (highlighted comp)) comp
         else with_highlighted false comp)
      prevComponents.

Definition handleComponentHighlight (componentId : Z) : state -> state :=
  setComponents (toggleHighlight componentId).

Definition handleComponentUpdate (newComponents : list Component)
  : state -> state :=
  setComponents (fun _ => newComponents).

Definition clearComponents : state -> state :=
  setComponents (fun _ => []).

Definition togglePanel (st : state) : state :=
  mk (components st) (negb (isPanelOpen st)) (explodeAmount st).

Definition handleToggleExplode (st : state) : state :=
  setExplodeAmount (if JS.gt (explodeAmount st) 0 then 0 else 2) st.

End App.

(** ** Strings: the operations of [String.prototype] the viewer uses, on
    ASCII text *)

Module Str.

Local Open Scope string_scope.

Definition lowerAscii (c : ascii) : ascii :=
  let n := nat_of_ascii c in
  if (Nat.leb 65 n && Nat.leb n 90)%bool then ascii_of_nat (n + 32) else c.

Fixpoint toLowerCase (s : string) : string :=
  match s with
  | EmptyString => EmptyString
  | String c rest => String (lowerAscii c) (toLowerCase rest)
  end.

(** [s.endsWith(suffix)] *)
Definition endsWith (s suffix : string) : bool :=
  let n := String.length s in
  let k := String.length suffix in
  (Nat.leb k n && String.eqb (substring (n - k) k s) suffix)%bool.

(** [s.includes(sub)] *)
Fixpoint includes (s sub : string) : bool :=
  (prefix sub s
   || match s with
      | EmptyString => false
      | String _ rest => includes rest sub
      end)%bool.

(** The decimal text of an integer, as a template literal prints it. *)
Definition ofZ (n : Z) : string :=
  match n with
  | Zneg _ => "-" ++ NilZero.string_of_uint (N.to_uint (Z.abs_N n))
  | _ => NilZero.string_of_uint (N.to_uint (Z.abs_N n))
  end.

End Str.

(** ** IFCViewer.jsx: decoding a file into components *)

Module Decoder.

Local Open Scope string_scope.

(** What [ifcManager.getItemProperties(modelID, id, true)] answers:
    it throws, or resolves to [null]/[undefined], or to an object whose
    [type] and [Name.value] may each be missing. *)
Record Props := mkProps {
  props_type : option Z;
  props_Name : option string
}.

Inductive PropsResult :=
| PropsThrows (message : string)
| PropsNone
| PropsOf (props : Props).

(** The decoder collaborator, as far as [loadIFCFile] questions it:
    the loaded model's id, the [expressID] attribute of its geometry (absent
    or an array of ids), the subset mesh [createSubset] builds for an id
    ([None]: it throws), and the item properties. *)
Record IfcModel := mkIfcModel {
  modelID : Z;
  expressIDAttr : option (list Z);
  createSubset : Z -> option Object3D.t;
  getItemProperties : Z -> PropsResult
}.

(** Reading the file and [ifcLoader.load]: an error message or a model. *)
Inductive Decoded :=
| FileReadingFailed (message : string)
| LoadFailed (message : string)
| Loaded (model : IfcModel).

(** [IFC_TYPES_MAP] *)
Definition IFC_TYPES_MAP (typeCode : Z) : option string :=
  match typeCode with
  | 0%Z => Some "Unknown"
  | 1%Z => Some "IFCWALL"
  | 2%Z => Some "IFCSLAB"
  | 3%Z => Some "IFCCOLUMN"
  | 4%Z => Some "IFCBEAM"
  | 5%Z => Some "IFCDOOR"
  | 6%Z => Some "IFCWINDOW"
  | _ => None
  end.

(** [uniqueIDs.add(id)] on a [Set] kept in insertion order. *)
Definition setAdd (s : list Z) (v : Z) : list Z :=
  if existsb (Z.eqb v) s then s else s ++ [v].

(** The scan of the attribute array: the distinct positive ids, first seen
    first. *)
Definition collectIDs (idsArray : list Z) : list Z :=
  fold_left (fun uniqueIDs v => if Z.ltb 0 v then setAdd uniqueIDs v else uniqueIDs)
            idsArray [].

(** The accumulators of the per-id loop. *)
Record Progress := mkProgress {
  extracted : list Component;
  processedCount : nat;
  failedCount : nat
}.

Definition failed (acc : Progress) : Progress :=
  mkProgress (extracted acc) (processedCount acc) (S (failedCount acc)).

(** [a || b] on strings: the empty string is falsy. *)
Definition or_else (a : option string) (b : string) : string :=
  match a with
  | Some "" | None => b
  | Some s => s
  end.

(** One turn of [for (const id of uniqueIDs)]. *)
Definition processID (model : IfcModel) (acc : Progress) (v : Z) : Progress :=
  match createSubset model v with
  | None => failed acc
  | Some subset =>
    match getItemProperties model v with
    | PropsThrows _ => failed acc
    | PropsNone => failed acc
    | PropsOf props =>
      match props_type props with
      | None => failed acc
      | Some t =>
        let name := or_else (props_Name props) ("ID " ++ Str.ofZ v) in
        let typeCode := t in
        let typeName :=
          match IFC_TYPES_MAP typeCode with
          | Some n => n
          | None => "Type_" ++ Str.ofZ typeCode
          end in
        mkProgress
          (extracted acc ++
             [ mkComponent v name typeName (Some subset) true false
                           (Some (Vector3.clone (Object3D.position subset))) ])
          (S (processedCount acc))
          (failedCount acc)
      end
    end
  end.

(** The two ways an id is lost: its property lookup throws, resolves to
    nothing or lacks the [type] field, or building its subset throws. *)
Definition lookupFails (model : IfcModel) (v : Z) : bool :=
  match getItemProperties model v with
  | PropsOf props =>
    match props_type props with
    | Some _ => false
    | None => true
    end
  | _ => true
  end.

Definition survives (model : IfcModel) (v : Z) : bool :=
  match createSubset model v with
  | Some _ => negb (lookupFails model v)
  | None => false
  end.

Definition processIDs (model : IfcModel) (uniqueIDs : list Z) : Progress :=
  fold_left (processID model) uniqueIDs (mkProgress [] 0 0).

(** What the promise resolves to. *)
Record Result := mkResult {
  components : list Component;
  model : IfcModel
}.

Definition noExpressID := "No expressID attribute found in geometry".
Definition noValidComponents :=
  "No valid components could be extracted from the IFC file".

(** The [catch] clause: the message the promise is rejected with. *)
Definition rejection (errorMessage : string) : string :=
  if (Str.includes errorMessage "WASM" || Str.includes errorMessage "WebAssembly")%bool
  then "WebAssembly initialization failed. Please refresh the page and try again."
  else if (Str.includes errorMessage "network" || Str.includes errorMessage "fetch")%bool
  then "Network error while loading IFC file. Please check your connection."
  else "Failed to load IFC file: " ++ errorMessage.

(** The model once loaded: scan, per-id loop, and the final test on
    [components.length]. *)
Definition extract (m : IfcModel) : string + (Result * Progress) :=
  match expressIDAttr m with
  | None => inl (rejection noExpressID)
  | Some idsArray =>
    let acc := processIDs m (collectIDs idsArray) in
    match extracted acc with
    | [] => inl noValidComponents
    | _ => inr (mkResult (extracted acc) m, acc)
    end
  end.

Definition loadIFCFile (decoded : Decoded) : string + (Result * Progress) :=
  match decoded with
  | FileReadingFailed message => inl (rejection ("File reading failed: " ++ message))
  | LoadFailed message => inl (rejection ("Failed to load IFC model: " ++ message))
  | Loaded m => extract m
  end.

End Decoder.

(** ** IFCViewer.jsx: picking and measuring *)

(** One entry of [raycaster.intersectObjects(scene.children, true)]; the
    array comes sorted by distance, nearest first. *)
Record Intersection := mkIntersection {
  point : Vector3.t;
  object : Object3D.t
}.

Module MeasurementSystem.

(** [new THREE.Line(geometry.setFromPoints([point1, point2]), red)] *)
Record Line := mkLine { line_from : Vector3.t; line_to : Vector3.t }.

(** [useState([])] twice: the picked points and the drawn lines. *)
Record state := mk {
  points : list Vector3.t;
  lines : list Line
}.

Definition initial : state := mk [] [].

(** A call of the [onMeasurementComplete] prop. *)
Record Measurement := mkMeasurement {
  p1 : Vector3.t;
  p2 : Vector3.t;
  distance : JS.number
}.

(** The stages of a measurement, read off [points.length]. *)
Inductive Stage := Idle | FirstPointCaptured | Completed.

Definition stage (s : state) : Stage :=
  match points s with
  | [] => Idle
  | [_] => FirstPointCaptured
  | _ => Completed
  end.

(** The click listener: the new state and the calls of
    [onMeasurementComplete] it made. *)
Definition handleClick (isActive : bool) (s : state)
           (intersects : list Intersection) : state * list Measurement :=
  if negb isActive then (s, [])
  else
    match intersects with
    | [] => (s, [])
    | nearest :: _ =>
      let newPoint := Vector3.clone (point nearest) in
      match points s with
      | [] => (mk [newPoint] (lines s), [])
      | [point1] =>
        let point2 := newPoint in
        let distance := Vector3.distanceTo point1 point2 in
        let line := mkLine point1 point2 in
        (mk [point1; point2] [line], [mkMeasurement point1 point2 distance])
      | _ => (s, [])
      end
    end.

(** [useEffect(() => { if (!isActive) { setPoints([]); setLines([]) } },
    [isActive])] *)
Definition resetEffect (isActive : bool) (s : state) : state :=
  if negb isActive then mk [] [] else s.

End MeasurementSystem.

(** The measuring part of the viewer: the [isMeasuring] flag, the mounted
    [MeasurementSystem] and the distances shown by [alert]. *)
Module Measuring.

Record state := mk {
  isMeasuring : bool;
  system : MeasurementSystem.state;
  alerts : list JS.number
}.

Definition initial : state := mk false MeasurementSystem.initial [].

(** [alert(...); setIsMeasuring(false)] *)
Definition handleMeasurementComplete (m : MeasurementSystem.Measurement)
           (st : state) : state :=
  mk false (system st) (alerts st ++ [MeasurementSystem.distance m]).

Definition handleToggleMeasurement (st : state) : state :=
  mk (negb (isMeasuring st)) (system st) (alerts st).

(** After a render in which [isActive] changed, the reset effect runs. *)
Definition commit (before : bool) (st : state) : state :=
  if Bool.eqb before (isMeasuring st) then st
  else mk (isMeasuring st)
          (MeasurementSystem.resetEffect (isMeasuring st) (system st))
          (alerts st).

(** A click on the canvas, up to the render that follows it: the listener
    runs against the current props, the parent's callback handles what it
    emitted, and the effects of the re-render run. *)
Definition click (intersects : list Intersection) (st : state)
  : state * list MeasurementSystem.Measurement :=
  let '(sys, emitted) :=
    MeasurementSystem.handleClick (isMeasuring st) (system st) intersects in
  let st1 := mk (isMeasuring st) sys (alerts st) in
  let st2 := fold_left (fun acc m => handleMeasurementComplete m acc) emitted st1 in
  (commit (isMeasuring st) st2, emitted).

(** The toolbar button, up to the render that follows it. *)
Definition toggle (st : state) : state :=
  commit (isMeasuring st) (handleToggleMeasurement st).

End Measuring.

(** [handleSceneClick]: the new component list and selection, when the hit
    object carries a truthy [userData.expressID]. *)
Definition handleSceneClick (intersection : Intersection)
           (components : list Component) : option (Z * list Component) :=
  match Object3D.expressID (object intersection) with
  | Some expressID =>
    if Z.eqb expressID 0 then None
    else Some (expressID,
               map (fun c => with_highlighted (Z.eqb (id c) expressID) c) components)
  | None => None
  end.

(** [SceneSetup]'s click listener in front of it. *)
Definition sceneClick (intersects : list Intersection) (st : App.state) : App.state :=
  match intersects with
  | [] => st
  | intersection :: _ =>
    match handleSceneClick intersection (App.components st) with
    | Some (_, updated) => App.handleComponentUpdate updated st
    | None => st
    end
  end.

(** The rows of the viewer's own components list: a click highlights the
    row's component, the checkbox sets its visibility. *)
Definition listRowClick (rowId : Z) (components : list Component) : list Component :=
  map (fun comp => with_highlighted (Z.eqb (id comp) rowId) comp) components.

Definition listRowCheck (rowId : Z) (checked : bool) (components : list Component)
  : list Component :=
  map (fun comp => if Z.eqb (id comp) rowId then with_visible checked comp else comp)
      components.

(** ** IFCViewer.jsx: clipping planes *)

Module ClippingPlanes.

Local Open Scope float_scope.

(** [new THREE.PlaneHelper(plane, 10, 0x00ff00)]: a line object with one
    child mesh whose material [fill] the traversal reaches. *)
Record PlaneHelper := mkPlaneHelper {
  helper_plane : Plane.t;
  helper_size : JS.number;
  helper_color : Z;
  fill : Material.t
}.

(** What [scene.traverse] walks through: the component meshes [IFCModel]
    renders, the other objects of the canvas, and the plane helper while one
    is attached. *)
Record Scene := mkScene {
  components : list Component;
  others : list Object3D.t;
  planeHelper : option PlaneHelper
}.

Record Props := mkProps {
  isSplitMode : bool;
  splitPosition : JS.number;
  clipAxis : string
}.

(** [useState(false)], [useState(50)], [useState('x')] *)
Definition initialProps : Props := mkProps false 50 "x".

(** The statement applied to every material of every mesh. *)
Definition assign (planes : list Plane.t) (mat : Material.t) : Material.t :=
  Material.set_needsUpdate true (Material.set_clippingPlanes planes mat).

(** The callback handed to [scene.traverse]. *)
Definition visit (planes : list Plane.t) (child : Object3D.t) : Object3D.t :=
  if Object3D.isMesh child then
    match Object3D.material child with
    | Some slot =>
      Object3D.set_material (Some (forEachMaterial (assign planes) slot)) child
    | None => child
    end
  else child.

Definition visitHelper (planes : list Plane.t) (h : PlaneHelper) : PlaneHelper :=
  mkPlaneHelper (helper_plane h) (helper_size h) (helper_color h)
                (assign planes (fill h)).

Definition traverse (planes : list Plane.t) (scene : Scene) : Scene :=
  mkScene (map (onMesh (visit planes)) (components scene))
          (map (visit planes) (others scene))
          (option_map (visitHelper planes) (planeHelper scene)).

Definition normalOf (clipAxis : string) : Vector3.t :=
  Vector3.mk (if String.eqb clipAxis "x" then 1 else 0)
             (if String.eqb clipAxis "y" then 1 else 0)
             (if String.eqb clipAxis "z" then 1 else 0).

(** [new THREE.Plane(normal, -splitPosition / 10)] *)
Definition planeOf (p : Props) : Plane.t :=
  Plane.mk (normalOf (clipAxis p)) (- splitPosition p / 10).

(** The material a [PlaneHelper] gives its child mesh. *)
Definition helperFill : Material.t := Material.mk None false false.

(** The body of the effect. *)
Definition effect (p : Props) (scene : Scene) : Scene :=
  if negb (isSplitMode p) then traverse [] scene
  else
    let plane := planeOf p in
    let withHelper :=
      mkScene (components scene) (others scene)
              (Some (mkPlaneHelper plane 10 65280%Z helperFill)) in
    traverse [plane] withHelper.

(** The function the effect returns when split mode is on. *)
Definition cleanup (scene : Scene) : Scene :=
  traverse [] (mkScene (components scene) (others scene) None).

Definition sameProps (p q : Props) : bool :=
  Bool.eqb (isSplitMode p) (isSplitMode q)
  && JS.same_value (splitPosition p) (splitPosition q)
  && String.eqb (clipAxis p) (clipAxis q).

(** A render with new props: when a dependency changed, the previous
    effect's cleanup (there is one when split mode was on) and then the
    effect. *)
Definition update (previous next : Props) (scene : Scene) : Scene :=
  if sameProps previous next then scene
  else effect next (if isSplitMode previous then cleanup scene else scene).

(** The materials of a component that the traversal reaches. *)
Definition clippable (c : Component) : list Material.t :=
  match mesh c with
  | Some m =>
    if Object3D.isMesh m then
      match Object3D.material m with
      | Some slot => materialsOf slot
      | None => []
      end
    else []
  | None => []
  end.

End ClippingPlanes.

(** ** IFCViewer.jsx: centroids and the explode effect *)

Module Explode.

Local Open Scope float_scope.

Section WorldTransform.

(** [mesh.matrixWorld] after [updateMatrixWorld], as the point
    transformation it stands for.  It is the scene graph's: a function of
    the object's own position, rotation and scale and of its ancestors'. *)
Variable matrixWorld : Object3D.t -> Vector3.t -> Vector3.t.

(** [box.expandByObject(mesh)] for an object without children. *)
Definition expandByObject (box : Box3.t) (o : Object3D.t) : Box3.t :=
  match Object3D.geometry o with
  | Some g =>
    Box3.union box (Box3.applyMatrix4 (BufferGeometry.box g) (matrixWorld o))
  | None => box
  end.

(** [if (!geometry.boundingBox) geometry.computeBoundingBox()] on a
    component that has a mesh with a geometry. *)
Definition cacheBoundingBox (c : Component) : Component :=
  onMesh (fun m =>
            Object3D.set_geometry
              (option_map BufferGeometry.ensureBoundingBox (Object3D.geometry m)) m)
         c.

Definition modelBoxOf (components : list Component) : Box3.t :=
  fold_left (fun box c =>
               match mesh c with
               | Some m => expandByObject box m
               | None => box
               end)
            components Box3.empty.

(** The centroid of one component: the centre of its local box, moved to
    world space. *)
Definition centroidOf (c : Component) : Vector3.t :=
  match mesh c with
  | Some m =>
    match Object3D.geometry m with
    | Some g => matrixWorld m (Box3.getCenter (BufferGeometry.box g))
    | None => Vector3.zero
    end
  | None => Vector3.zero
  end.

(** The effect on [[components]] that fills [originalCentroids]. *)
Definition centroidEffect (components : list Component)
           (originalCentroids : list Vector3.t)
  : list Component * list Vector3.t :=
  match components, originalCentroids with
  | _ :: _, [] =>
    let cached := map cacheBoundingBox components in
    (cached, map centroidOf cached)
  | [], _ => (components, [])
  | _, _ => (components, originalCentroids)
  end.

(** Lines 505-507: the direction away from the model centre, scaled. *)
Definition directionOf (modelCenter centroid : Vector3.t) : Vector3.t :=
  Vector3.normalize (Vector3.subVectors centroid modelCenter).

Definition offsetOf (explodeAmount : JS.number) (modelCenter : Vector3.t)
           (modelSize : JS.number) (centroid : Vector3.t) : Vector3.t :=
  Vector3.multiplyScalar (directionOf modelCenter centroid)
                         (explodeAmount * modelSize * 0.5).

(** The mesh and the initial position of a component the loop does not
    skip. *)
Definition explodable (c : Component) : option (Object3D.t * Vector3.t) :=
  match mesh c, initialPosition c with
  | Some m, Some p0 =>
    match Object3D.geometry m with
    | Some _ => Some (m, p0)
    | None => None
    end
  | _, _ => None
  end.

Definition moveTo (p : Vector3.t) (c : Component) : Component :=
  onMesh (Object3D.set_position p) c.

(** [components.forEach((component, i) => ...)], with [centroids] the
    part of [originalCentroids] from index [i] on.  The flag tells that a
    turn threw ([originalCentroids[i]] was undefined), which ends the
    loop with the components after it untouched. *)
Fixpoint explodeEach (explodeAmount : JS.number) (modelCenter : Vector3.t)
         (modelSize : JS.number) (components : list Component)
         (centroids : list Vector3.t) : list Component * bool :=
  match components with
  | [] => ([], false)
  | component :: rest =>
    match explodable component with
    | None =>
      let (done, threw) :=
        explodeEach explodeAmount modelCenter modelSize rest (tl centroids) in
      (component :: done, threw)
    | Some (_, initial) =>
      let copied := Vector3.clone initial in
      if JS.gt explodeAmount 0 then
        match centroids with
        | [] => (moveTo copied component :: rest, true)
        | centroid :: _ =>
          let offset := offsetOf explodeAmount modelCenter modelSize centroid in
          let (done, threw) :=
            explodeEach explodeAmount modelCenter modelSize rest (tl centroids) in
          (moveTo (Vector3.add copied offset) component :: done, threw)
        end
      else
        let (done, threw) :=
          explodeEach explodeAmount modelCenter modelSize rest (tl centroids) in
        (moveTo copied component :: done, threw)
    end
  end.

(** The effect on [[explodeAmount, components, originalCentroids]]. *)
Definition effect (explodeAmount : JS.number) (components : list Component)
           (originalCentroids : list Vector3.t) : list Component * bool :=
  match components, originalCentroids with
  | [], _ => (components, false)
  | _, [] => (components, false)
  | _, _ =>
    let cached := map cacheBoundingBox components in
    let modelBox := modelBoxOf cached in
    let modelCenter := Box3.getCenter modelBox in
    let modelSize := Vector3.length (Box3.getSize modelBox) in
    explodeEach explodeAmount modelCenter modelSize cached originalCentroids
  end.

(** The effect run once per amount of a history of slider moves. *)
Definition replay (history : list JS.number) (originalCentroids : list Vector3.t)
           (components : list Component) : list Component :=
  fold_left (fun cs amount => fst (effect amount cs originalCentroids))
            history components.

End WorldTransform.

(** What one run of the loop may do to a component: its identity, its
    initial position and whether the loop handles it stay as they are. *)
Definition sameComponent (c c' : Component) : Prop :=
  id c' = id c
  /\ initialPosition c' = initialPosition c
  /\ (forall m p0, explodable c = Some (m, p0) ->
                   exists m', explodable c' = Some (m', p0)).

(** The component once the loop has put it back. *)
Definition settled (c c' : Component) : Prop :=
  sameComponent c c'
  /\ (forall m p0, explodable c = Some (m, p0) ->
                   exists m', mesh c' = Some m' /\ Object3D.position m' = p0).

(** The slider's clamp, as the specification words it: [value] brought into
    [[0, 2]]. *)
Definition clamp (value : JS.number) : JS.number :=
  if PrimFloat.ltb value 0 then 0
  else if PrimFloat.ltb 2 value then 2
  else value.

End Explode.

(** ** IFCViewer.jsx: uploading a file *)

Module Upload.

Local Open Scope string_scope.

Record File := mkFile { fileName : string; size : Z }.

Record UIError := mkError { title : string; message : string }.

(** The viewer's state the upload handler writes. *)
Record Viewer := mkViewer {
  loading : bool;
  error : option UIError;
  ifcManager : option Decoder.IfcModel;
  modelID : option Z
}.

Definition initial : Viewer := mkViewer false None None None.

Definition setLoading (b : bool) (v : Viewer) : Viewer :=
  mkViewer b (error v) (ifcManager v) (modelID v).

Definition setError (e : option UIError) (v : Viewer) : Viewer :=
  mkViewer (loading v) e (ifcManager v) (modelID v).

Definition setManager (m : Decoder.IfcModel) (v : Viewer) : Viewer :=
  mkViewer (loading v) (error v) (Some m) (Some (Decoder.modelID m)).

(** An [async] handler: it has returned, or it awaits [loadIFCFile(file)]
    and resumes with the outcome. *)
Inductive Task (A : Type) :=
| Return (a : A)
| AwaitLoadIFCFile (file : File)
                   (resume : string + (Decoder.Result * Decoder.Progress) -> A).

Arguments Return {A} a.
Arguments AwaitLoadIFCFile {A} file resume.

Definition maxSize : Z := 100 * 1024 * 1024.

Definition invalidFile : UIError :=
  mkError "Invalid File" "Please select a valid IFC file (.ifc extension required).".

Definition fileTooLarge : UIError :=
  mkError "File Too Large" "File size exceeds 100MB limit.".

(** The [try]/[catch]/[finally] around the awaited load. *)
Definition loaded (st : App.state * Viewer)
           (outcome : string + (Decoder.Result * Decoder.Progress))
  : App.state * Viewer :=
  let (app, viewer) := st in
  match outcome with
  | inr (result, _) =>
    (App.handleComponentUpdate (Decoder.components result) app,
     setLoading false (setManager (Decoder.model result) viewer))
  | inl message =>
    (app, setLoading false (setError (Some (mkError "Loading Error" message)) viewer))
  end.

(** [files] is [event.target.files[0]]. *)
Definition handleFileUpload (files : option File) (st : App.state * Viewer)
  : Task (App.state * Viewer) :=
  let (app, viewer) := st in
  match files with
  | None => Return st
  | Some file =>
    if negb (Str.endsWith (Str.toLowerCase (fileName file)) ".ifc")
    then Return (app, setError (Some invalidFile) viewer)
    else if Z.ltb maxSize (size file)
    then Return (app, setError (Some fileTooLarge) viewer)
    else AwaitLoadIFCFile file (loaded (app, setError None (setLoading true viewer)))
  end.

(** The handler run to its end against a decoder. *)
Definition run {A} (decode : File -> Decoder.Decoded) (task : Task A) : A :=
  match task with
  | Return a => a
  | AwaitLoadIFCFile file resume => resume (Decoder.loadIFCFile (decode file))
  end.

(** Whether the handler got as far as decoding. *)
Definition decodes {A} (task : Task A) : bool :=
  match task with
  | Return _ => false
  | AwaitLoadIFCFile _ _ => true
  end.

End Upload.

(** ** The events of a session *)

Module Session.

Definition state : Type := App.state * Upload.Viewer.

Definition initial : state := (App.initial, Upload.initial).

(** [handleClearIFCFile], on the state modelled here. *)
Definition handleClearIFCFile (st : state) : state :=
  let (app, viewer) := st in
  (App.clearComponents app, Upload.mkViewer false None None None).

(** [loadFileFromPublic]: the fetched file goes to [loadIFCFile] with no
    validation. *)
Definition loadFileFromPublic (decoded : Decoder.Decoded) (st : state) : state :=
  let (app, viewer) := st in
  Upload.loaded (app, Upload.setError None (Upload.setLoading true viewer))
                (Decoder.loadIFCFile decoded).

(** What the user, the scene and the decoder can make happen. *)
Inductive Event :=
| PanelHighlight (componentId : Z)
| PanelToggle (componentId : Z)
| ScenePick (intersects : list Intersection)
| ListRowClick (rowId : Z)
| ListRowCheck (rowId : Z) (checked : bool)
| ExplodeSlider (value : JS.number)
| ClearModel
| UploadFile (files : option Upload.File) (decode : Upload.File -> Decoder.Decoded)
| LoadFromPublic (decoded : Decoder.Decoded)
| BoundaryReset.

Definition onApp (f : App.state -> App.state) (st : state) : state :=
  (f (fst st), snd st).

Definition handle (e : Event) (st : state) : state :=
  match e with
  | PanelHighlight componentId => onApp (App.handleComponentHighlight componentId) st
  | PanelToggle componentId => onApp (App.handleComponentToggle componentId) st
  | ScenePick intersects => onApp (sceneClick intersects) st
  | ListRowClick rowId =>
    onApp (fun app => App.handleComponentUpdate (listRowClick rowId (App.components app)) app) st
  | ListRowCheck rowId checked =>
    onApp (fun app =>
             App.handleComponentUpdate (listRowCheck rowId checked (App.components app)) app)
          st
  | ExplodeSlider value => onApp (App.setExplodeAmount value) st
  | ClearModel => handleClearIFCFile st
  | UploadFile files decode => Upload.run decode (Upload.handleFileUpload files st)
  | LoadFromPublic decoded => loadFileFromPublic decoded st
  | BoundaryReset =>
    (App.handleComponentUpdate [] (fst st),
     Upload.setLoading false (Upload.setError None (snd st)))
  end.

Definition run (events : list Event) : state :=
  fold_left (fun st e => handle e st) events initial.

(** The registry of a state: the component list [App] holds. *)
Definition registry (st : state) : list Component := App.components (fst st).

End Session.

(** ** Reading the registry *)

(** The ids of the highlighted components, in list order. *)
Definition highlightedIds (components : list Component) : list Z :=
  map id (filter highlighted components).

Definition ids (components : list Component) : list Z := map id components.

(** The registry invariant: distinct ids, at most one component highlighted. *)
Definition wellFormed (components : list Component) : Prop :=
  NoDup (ids components)
  /\ (List.length (filter highlighted components) <= 1)%nat.

(** ** Sample data *)

Module Sample.

Local Open Scope float_scope.
Local Open Scope string_scope.

Definition steel : Material.t := Material.mk None false false.

(** A unit cube placed at [p], tagged with [expressID]. *)
Definition cube (expressID : Z) (p : Vector3.t) : Object3D.t :=
  Object3D.mk true p
    (Some (BufferGeometry.mk [Vector3.mk 0 0 0; Vector3.mk 1 1 1] None))
    (Some (SingleMaterial steel))
    (Some expressID).

Definition origin : Vector3.t := Vector3.mk 0 0 0.

Definition wall : Component :=
  mkComponent 1 "Wall" "IFCWALL" (Some (cube 1 origin)) true false (Some origin).

Definition slab : Component :=
  mkComponent 2 "Slab" "IFCSLAB" (Some (cube 2 (Vector3.mk 4 0 0))) true true
              (Some (Vector3.mk 4 0 0)).

Definition building : App.state := App.mk [wall; slab] true 0.

(** A model whose geometry carries ten distinct positive ids (and the
    sentinels 0 and -1); the lookup of 3 resolves to nothing and that of 7
    lacks the type field. *)
Definition tower : Decoder.IfcModel :=
  Decoder.mkIfcModel
    0 (Some [1; 1; 2; 0; 3; 4; 4; 5; -1; 6; 7; 8; 9; 10; 10; 2]%Z)
    (fun v => Some (cube v origin))
    (fun v =>
       if Z.eqb v 3 then Decoder.PropsNone
       else if Z.eqb v 7 then Decoder.PropsOf (Decoder.mkProps None (Some "Door"))
       else Decoder.PropsOf (Decoder.mkProps (Some v) None)).

(** The sample components on the canvas, next to a light. *)
Definition canvas : ClippingPlanes.Scene :=
  ClippingPlanes.mkScene
    [wall; slab]
    [Object3D.mk false origin None None None]
    None.

Definition splitAtMiddle : ClippingPlanes.Props :=
  ClippingPlanes.mkProps true 50 "x".

(** Objects move with their own position only. *)
Definition translation (o : Object3D.t) (v : Vector3.t) : Vector3.t :=
  Vector3.add v (Object3D.position o).

End Sample.

(** ** Reading the loader's results *)

Module Loaded.

Local Open Scope string_scope.

(** What a component pushed for id [v] looks like. *)
Definition builtFor (m : Decoder.IfcModel) (c : Component) : Prop :=
  exists subset props t,
    Decoder.createSubset m (id c) = Some subset
    /\ Decoder.getItemProperties m (id c) = Decoder.PropsOf props
    /\ Decoder.props_type props = Some t
    /\ mesh c = Some subset
    /\ initialPosition c = Some (Object3D.position subset)
    /\ visible c = true /\ highlighted c = false
    /\ name c = Decoder.or_else (Decoder.props_Name props) ("ID " ++ Str.ofZ (id c))
    /\ type c = match Decoder.IFC_TYPES_MAP t with
                | Some n => n
                | None => "Type_" ++ Str.ofZ t
                end.

(** What every component of the registry has. *)
Definition wellBuilt (c : Component) : Prop :=
  (0 < id c)%Z
  /\ mesh c <> None /\ initialPosition c <> None
  /\ name c <> "" /\ type c <> "".

Definition wasmFailed : string :=
  "WebAssembly initialization failed. Please refresh the page and try again.".

Definition networkFailed : string :=
  "Network error while loading IFC file. Please check your connection.".

End Loaded.

(** ** Reading the explode effect's results *)

Module Exploded.

(** A component put back by the loop: a component the loop handles has its
    mesh at the initial position, any other is as it was. *)
Definition atRest (c : Component) : Component :=
  match Explode.explodable c with
  | Some (_, p0) => Explode.moveTo (Vector3.clone p0) c
  | None => c
  end.

(** What the explode effect leaves alone in a component: everything but the
    mesh's position and its geometry's cached box. *)
Definition untouched (c c' : Component) : Prop :=
  id c' = id c /\ name c' = name c /\ type c' = type c
  /\ visible c' = visible c /\ highlighted c' = highlighted c
  /\ initialPosition c' = initialPosition c
  /\ option_map Object3D.isMesh (mesh c') = option_map Object3D.isMesh (mesh c)
  /\ option_map Object3D.material (mesh c') = option_map Object3D.material (mesh c)
  /\ option_map Object3D.expressID (mesh c') = option_map Object3D.expressID (mesh c)
  /\ option_map (fun m => option_map BufferGeometry.vertices (Object3D.geometry m))
                (mesh c')
     = option_map (fun m => option_map BufferGeometry.vertices (Object3D.geometry m))
                  (mesh c).

End Exploded.

(** ** ComponentPanel.jsx: filters, statistics and bulk actions *)

Module ComponentPanel.

Local Open Scope string_scope.

(** [useState('')], [useState('all')], [useState(false)] *)
Record Filters := mkFilters {
  searchTerm : string;
  selectedType : string;
  showOnlyVisible : bool
}.

Definition noFilters : Filters := mkFilters "" "all" false.

Section Lowercase.

(** [String.prototype.toLowerCase] is the engine's: it maps every cased
    letter, not the letters A to Z only, and is taken as a parameter. *)
Variable toLowerCase : string -> string.

(** The predicate of [components.filter(...)] in [filteredComponents]. *)
Definition matches (f : Filters) (component : Component) : bool :=
  let matchesSearch :=
    (Str.includes (toLowerCase (name component)) (toLowerCase (searchTerm f))
     || Str.includes (toLowerCase (type component)) (toLowerCase (searchTerm f)))%bool in
  let matchesType :=
    (String.eqb (selectedType f) "all" || String.eqb (type component) (selectedType f))%bool in
  let matchesVisibility := (negb (showOnlyVisible f) || visible component)%bool in
  (matchesSearch && matchesType && matchesVisibility)%bool.

Definition filteredComponents (f : Filters) (components : list Component)
  : list Component :=
  match components with
  | [] => []
  | _ => filter (matches f) components
  end.

End Lowercase.

Record Stats := mkStats {
  total : nat;
  visibleCount : nat;
  hidden : nat;
  highlightedCount : nat
}.

Definition stats (components : list Component) : Stats :=
  match components with
  | [] => mkStats 0 0 0 0
  | _ =>
    let total := List.length components in
    let visible := List.length (filter visible components) in
    let hidden := total - visible in
    let highlighted := List.length (filter highlighted components) in
    mkStats total visible hidden highlighted
  end.

(** [[...new Set(xs)]]: the distinct values, first seen first. *)
Definition distinct (xs : list string) : list string :=
  fold_left (fun seen v => if existsb (String.eqb v) seen then seen else (seen ++ [v])%list)
            xs [].

(** [Array.prototype.sort()] on strings: ascending by code unit. *)
Fixpoint insertSorted (v : string) (sorted : list string) : list string :=
  match sorted with
  | [] => [v]
  | w :: rest => if String.leb v w then v :: sorted else w :: insertSorted v rest
  end.

Definition sort (xs : list string) : list string :=
  fold_right insertSorted [] xs.

Definition componentTypes (components : list Component) : list string :=
  match components with
  | [] => []
  | _ => sort (distinct (map type components))
  end.

(** [handleToggleAll(visible)]: one queued [onComponentToggle] per filtered
    component whose [visible] differs, each applied to the state the previous
    one left. *)
Definition handleToggleAll (target : bool) (filtered : list Component)
           (st : App.state) : App.state :=
  fold_left (fun acc component =>
               if Bool.eqb (visible component) target then acc
               else App.handleComponentToggle (id component) acc)
            filtered st.

End ComponentPanel.

(** ** IFCViewer.jsx: the wireframe effect *)

Module Wireframe.

Definition set_wireframe (enabled : bool) (mat : Material.t) : Material.t :=
  Material.mk (Material.clippingPlanes mat) true enabled.

(** The body of [components.forEach] in the effect on
    [[localWireframeEnabled, components]]. *)
Definition apply (enabled : bool) (o : Object3D.t) : Object3D.t :=
  match Object3D.material o with
  | Some slot =>
    Object3D.set_material (Some (forEachMaterial (set_wireframe enabled) slot)) o
  | None => o
  end.

Definition effect (enabled : bool) (components : list Component) : list Component :=
  map (onMesh (apply enabled)) components.

(** Every material of a component's mesh. *)
Definition materials (c : Component) : list Material.t :=
  match mesh c with
  | Some m =>
    match Object3D.material m with
    | Some slot => materialsOf slot
    | None => []
    end
  | None => []
  end.

End Wireframe.

(** ** IFCViewer.jsx: [IFCModel], highlight materials and mesh visibility *)

Module IFCModel.

(** A component's mesh with the two fields this effect keeps on it besides
    those of [Object3D.t]: [userData.originalMaterial] and [visible]. *)
Record Rendered := mkRendered {
  object3D : Object3D.t;
  originalMaterial : option MaterialSlot;
  meshVisible : bool
}.

(** [new THREE.MeshBasicMaterial({ color: 0xff0000, ... })] with
    [needsUpdate = true]: a fresh material, no clipping planes. *)
Definition highlightMaterial : MaterialSlot :=
  SingleMaterial (Material.mk None true false).

(** [mesh.material.needsUpdate = true]: on a single material it sets the
    flag, on an array it sets a property of the array and touches no
    material. *)
Definition touch (slot : MaterialSlot) : MaterialSlot :=
  match slot with
  | SingleMaterial mat => SingleMaterial (Material.set_needsUpdate true mat)
  | MaterialArray mats => MaterialArray mats
  end.

(** One turn of [components.forEach] for a component that has a mesh. *)
Definition sync (isHighlighted isVisible : bool) (r : Rendered) : Rendered :=
  match Object3D.material (object3D r) with
  | Some current =>
    if isHighlighted then
      mkRendered (Object3D.set_material (Some highlightMaterial) (object3D r))
                 (match originalMaterial r with
                  | Some kept => Some kept
                  | None => Some current
                  end)
                 isVisible
    else
      match originalMaterial r with
      | Some kept =>
        mkRendered (Object3D.set_material (Some (touch kept)) (object3D r))
                   None isVisible
      | None => mkRendered (object3D r) None isVisible
      end
  | None => r
  end.

(** The renders a mesh goes through: the component's [highlighted] and
    [visible] at each. *)
Definition replay (flags : list (bool * bool)) (r : Rendered) : Rendered :=
  fold_left (fun acc f => sync (fst f) (snd f) acc) flags r.

End IFCModel.

(** ** The clipping traversal and the meshes [IFCModel] renders *)

Module Interplay.

(** [IFCModel] rendering a new component list: the primitives of the canvas
    are now the meshes of these components; the rest of the scene stays. *)
Definition render (arrived : list Component) (scene : ClippingPlanes.Scene)
  : ClippingPlanes.Scene :=
  ClippingPlanes.mkScene arrived (ClippingPlanes.others scene)
                         (ClippingPlanes.planeHelper scene).

(** [scene.traverse] reaching a rendered mesh: the callback sees the material
    the mesh has now; a material kept in [userData.originalMaterial] is not in
    the scene. *)
Definition traverseRendered (planes : list Plane.t) (r : IFCModel.Rendered)
  : IFCModel.Rendered :=
  IFCModel.mkRendered (ClippingPlanes.visit planes (IFCModel.object3D r))
                      (IFCModel.originalMaterial r) (IFCModel.meshVisible r).

(** [ClippingPlanes.update], as one rendered mesh sees it. *)
Definition updateRendered (previous next : ClippingPlanes.Props)
           (r : IFCModel.Rendered) : IFCModel.Rendered :=
  if ClippingPlanes.sameProps previous next then r
  else
    let cleaned :=
      if ClippingPlanes.isSplitMode previous then traverseRendered [] r else r in
    if ClippingPlanes.isSplitMode next
    then traverseRendered [ClippingPlanes.planeOf next] cleaned
    else traverseRendered [] cleaned.

End Interplay.

(** ** Histories of renders *)

Module History.

(** [ClippingPlanes] mounted with [first] and re-rendered with each of
    [changes] in turn. *)
Fixpoint clip (previous : ClippingPlanes.Props) (changes : list ClippingPlanes.Props)
         (scene : ClippingPlanes.Scene) : ClippingPlanes.Scene :=
  match changes with
  | [] => scene
  | next :: later => clip next later (ClippingPlanes.update previous next scene)
  end.

Definition clipFrom (first : ClippingPlanes.Props) (changes : list ClippingPlanes.Props)
           (scene : ClippingPlanes.Scene) : ClippingPlanes.Scene :=
  clip first changes (ClippingPlanes.effect first scene).

Definition lastProps (first : ClippingPlanes.Props)
           (changes : list ClippingPlanes.Props) : ClippingPlanes.Props :=
  last changes first.

(** What happens to the measuring tool: the toolbar button, or a click on
    the canvas with the intersections the ray casting found. *)
Inductive MeasureEvent :=
| ToggleTool
| CanvasClick (intersects : list Intersection).

Definition measureStep (st : Measuring.state * list MeasurementSystem.Measurement)
           (e : MeasureEvent)
  : Measuring.state * list MeasurementSystem.Measurement :=
  match e with
  | ToggleTool => (Measuring.toggle (fst st), snd st)
  | CanvasClick intersects =>
    let (st', emitted) := Measuring.click intersects (fst st) in
    (st', (snd st ++ emitted)%list)
  end.

(** The state and everything emitted after a sequence of events. *)
Definition measure (events : list MeasureEvent)
  : Measuring.state * list MeasurementSystem.Measurement :=
  fold_left measureStep events (Measuring.initial, []).

(** The states the tool is seen in between events: no line drawn, at most
    one captured point while the tool is on, none while it is off. *)
Definition settledTool (st : Measuring.state) : Prop :=
  MeasurementSystem.lines (Measuring.system st) = []
  /\ if Measuring.isMeasuring st
     then (List.length (MeasurementSystem.points (Measuring.system st)) <= 1)%nat
     else MeasurementSystem.points (Measuring.system st) = [].

End History.

(** ** More sample data *)

Module Fixtures.

Local Open Scope float_scope.
Local Open Scope string_scope.

Definition door : Component :=
  mkComponent 3 "Front Door" "IFCDOOR"
              (Some (Sample.cube 3 (Vector3.mk 0 0 2))) false false
              (Some (Vector3.mk 0 0 2)).

Definition house : App.state := App.mk [Sample.wall; Sample.slab; door] true 0.

Definition centres : list Vector3.t :=
  [Vector3.mk 0.5 0.5 0.5; Vector3.mk 4.5 0.5 0.5; Vector3.mk 0.5 0.5 2.5].

Definition rendered : IFCModel.Rendered :=
  IFCModel.mkRendered (Sample.cube 1 Sample.origin) None true.

(** The canvas before any model is loaded: a light and no component. *)
Definition emptyCanvas : ClippingPlanes.Scene :=
  ClippingPlanes.mkScene [] [Object3D.mk false Sample.origin None None None] None.

End Fixtures.

(** * Properties *)

(** ** The registry: highlight and visibility *)

Section Registry.

Implicit Types (cs : list Component) (c : Component) (X : Z).

Lemma ids_toggleHighlight X cs : ids (App.toggleHighlight X cs) = ids cs.
Proof.
  unfold ids, App.toggleHighlight. rewrite map_map.
  apply map_ext. intro c. now destruct (Z.eqb (id c) X).
Qed.

Lemma ids_toggleVisible X cs : ids (App.toggleVisible X cs) = ids cs.
Proof.
  unfold ids, App.toggleVisible. rewrite map_map.
  apply map_ext. intro c. now destruct (Z.eqb (id c) X).
Qed.

Lemma ids_listRowClick X cs : ids (listRowClick X cs) = ids cs.
Proof. unfold ids, listRowClick. now rewrite map_map. Qed.

Lemma ids_listRowCheck X b cs : ids (listRowCheck X b cs) = ids cs.
Proof.
  unfold ids, listRowCheck. rewrite map_map.
  apply map_ext. intro c. now destruct (Z.eqb (id c) X).
Qed.

(** Picking [X] leaves highlighted the components whose id is [X]. *)
Lemma highlightedIds_pick X cs :
  highlightedIds (listRowClick X cs) = filter (fun i => Z.eqb i X) (ids cs).
Proof.
  unfold highlightedIds, listRowClick, ids.
  induction cs as [|c cs IH]; simpl; [reflexivity|].
  destruct (Z.eqb (id c) X); simpl; now rewrite IH.
Qed.

(** The panel's button leaves highlighted the components whose id is [X]
    and that were not highlighted. *)
Lemma highlightedIds_toggle X cs :
  highlightedIds (App.toggleHighlight X cs)
  = map id (filter (fun c => Z.eqb (id c) X && negb (highlighted c)) cs).
Proof.
  unfold highlightedIds, App.toggleHighlight.
  induction cs as [|c cs IH]; simpl; [reflexivity|].
  destruct (Z.eqb (id c) X); simpl; [|exact IH].
  destruct (highlighted c); simpl; now rewrite IH.
Qed.

Lemma highlightedIds_toggleVisible X cs :
  highlightedIds (App.toggleVisible X cs) = highlightedIds cs.
Proof.
  unfold highlightedIds, App.toggleVisible.
  induction cs as [|c cs IH]; simpl; [reflexivity|].
  destruct (Z.eqb (id c) X); simpl; destruct (highlighted c); simpl;
    now rewrite IH.
Qed.

Lemma highlightedIds_listRowCheck X b cs :
  highlightedIds (listRowCheck X b cs) = highlightedIds cs.
Proof.
  unfold highlightedIds, listRowCheck.
  induction cs as [|c cs IH]; simpl; [reflexivity|].
  destruct (Z.eqb (id c) X); simpl; destruct (highlighted c); simpl;
    now rewrite IH.
Qed.

Lemma filter_absent (l : list Z) X :
  ~ In X l -> filter (fun i => Z.eqb i X) l = [].
Proof.
  induction l as [|a l IH]; simpl; intro H; [reflexivity|].
  destruct (Z.eqb_spec a X) as [->|_]; [exfalso; auto|auto].
Qed.

(** In a list without duplicates, one id selects one entry. *)
Lemma filter_unique (l : list Z) X :
  NoDup l -> In X l -> filter (fun i => Z.eqb i X) l = [X].
Proof.
  induction 1 as [|a l Hnotin Hnodup IH]; simpl; [easy|].
  intros [->|Hin].
  - rewrite Z.eqb_refl, filter_absent; auto.
  - destruct (Z.eqb_spec a X) as [->|_]; [contradiction|auto].
Qed.

Lemma filter_at_most_one (l : list Z) X :
  NoDup l -> (List.length (filter (fun i => Z.eqb i X) l) <= 1)%nat.
Proof.
  intro Hnodup. destruct (in_dec Z.eq_dec X l) as [Hin|Hout].
  - rewrite filter_unique by assumption. simpl. lia.
  - rewrite filter_absent by assumption. simpl. lia.
Qed.

(** The components carrying id [X], under two readings of "present". *)
Lemma components_with_id X cs (keep : Component -> bool) :
  List.length (filter (fun c => Z.eqb (id c) X && keep c) cs)
  <= List.length (filter (fun i => Z.eqb i X) (ids cs)).
Proof.
  unfold ids. induction cs as [|c cs IH]; simpl; [lia|].
  destruct (Z.eqb (id c) X); simpl; [|exact IH].
  destruct (keep c); simpl; lia.
Qed.

Lemma toggle_on X cs :
  NoDup (ids cs) -> In X (ids cs) -> ~ In X (highlightedIds cs) ->
  highlightedIds (App.toggleHighlight X cs) = [X].
Proof.
  intros Hnodup Hin Hoff. rewrite highlightedIds_toggle.
  rewrite <- (filter_unique (ids cs) X Hnodup Hin). unfold ids, highlightedIds in *.
  clear Hnodup Hin.
  induction cs as [|c cs IH]; simpl in *; [reflexivity|].
  destruct (Z.eqb_spec (id c) X) as [E|E]; simpl.
  - destruct (highlighted c); simpl in *.
    + exfalso. apply Hoff. now left.
    + f_equal. apply IH. exact Hoff.
  - apply IH. intro H. apply Hoff.
    destruct (highlighted c); simpl; auto.
Qed.

Lemma toggle_off X cs :
  NoDup (ids cs) -> In X (highlightedIds cs) ->
  highlightedIds (App.toggleHighlight X cs) = [].
Proof.
  intros Hnodup Hon. rewrite highlightedIds_toggle.
  unfold ids, highlightedIds in *.
  induction cs as [|c cs IH]; simpl in *; [reflexivity|].
  inversion Hnodup as [|? ? Hnotin Hrest]; subst.
  destruct (Z.eqb_spec (id c) X) as [E|E]; simpl.
  - assert (Hnone : filter (fun c0 => Z.eqb (id c0) X && negb (highlighted c0)) cs = []).
    { clear - Hnotin E. induction cs as [|d cs IH]; simpl in *; [reflexivity|].
      destruct (Z.eqb_spec (id d) X) as [E'|E']; simpl.
      - exfalso. apply Hnotin. left. congruence.
      - apply IH. intro H. apply Hnotin. now right. }
    destruct (highlighted c) eqn:Hc; simpl in *.
    + now rewrite Hnone.
    + exfalso. apply Hnotin. rewrite E.
      apply in_map_iff in Hon as (d & Hd & Hin). apply filter_In in Hin.
      apply in_map_iff. exists d. tauto.
  - apply IH; [assumption|].
    destruct (highlighted c); simpl in Hon; [destruct Hon; congruence|assumption].
Qed.

End Registry.

(** C1, as amended.  In a registry with pairwise distinct ids that holds a
    component [X]: a scene pick of [X] (and a click on its row in the viewer's
    list) leaves exactly one component highlighted, [X], whatever was
    highlighted before; the panel's highlight button flips [X] and clears the
    others, so it leaves exactly [X] highlighted when [X] was not, and no
    component highlighted when [X] was. *)
Theorem pick_selects_and_panel_toggles (st : App.state) (X : Z) :
  NoDup (ids (App.components st)) ->
  In X (ids (App.components st)) ->
  X <> 0%Z ->
  (forall hit rest,
      Object3D.expressID (object hit) = Some X ->
      highlightedIds (App.components (sceneClick (hit :: rest) st)) = [X])
  /\ highlightedIds (listRowClick X (App.components st)) = [X]
  /\ (~ In X (highlightedIds (App.components st)) ->
      highlightedIds (App.components (App.handleComponentHighlight X st)) = [X])
  /\ (In X (highlightedIds (App.components st)) ->
      highlightedIds (App.components (App.handleComponentHighlight X st)) = []).
Proof.
  intros Hnodup Hin Hnz.
  assert (Hpick : highlightedIds (listRowClick X (App.components st)) = [X]).
  { rewrite highlightedIds_pick. now apply filter_unique. }
  repeat split.
  - intros hit rest Hhit. unfold sceneClick, handleSceneClick. rewrite Hhit.
    destruct (Z.eqb_spec X 0) as [E|_]; [contradiction|]. exact Hpick.
  - exact Hpick.
  - intro Hoff. now apply toggle_on.
  - intro Hon. now apply toggle_off.
Qed.

Lemma pick_selects_and_panel_toggles_witness :
  highlightedIds (listRowClick 1 (App.components Sample.building)) = [1%Z]
  /\ highlightedIds
       (App.components (App.handleComponentHighlight 2 Sample.building)) = [].
Proof.
  assert (Hdistinct : NoDup (ids (App.components Sample.building))).
  { repeat constructor; simpl; intuition discriminate. }
  split.
  - refine (proj1 (proj2 (pick_selects_and_panel_toggles
                            Sample.building 1 Hdistinct _ _))).
    + simpl. now left.
    + discriminate.
  - refine (proj2 (proj2 (proj2 (pick_selects_and_panel_toggles
                                   Sample.building 2 Hdistinct _ _))) _).
    + simpl. now right; left.
    + discriminate.
    + simpl. now left.
Defined.

(** C1 as stated fails: the panel's highlight button on the component that
    is highlighted already leaves no component highlighted. *)
Lemma panel_highlight_of_highlighted_clears :
  In 2%Z (ids (App.components Sample.building))
  /\ highlighted Sample.slab = true
  /\ highlightedIds
       (App.components (App.handleComponentHighlight 2 Sample.building)) = []
  /\ highlightedIds
       (App.components (App.handleComponentHighlight 2 Sample.building)) <> [2%Z].
Proof. repeat split; simpl; try tauto; discriminate. Qed.

(** C10.  The visibility toggle keeps the list's length and order; every
    component whose id is not the target is returned as it was, the target
    has [visible] negated and every other field as before; with the id absent
    the list is returned unchanged, and the rest of the state is untouched in
    every case. *)
Theorem toggle_changes_only_target_visible (st : App.state) (X : Z) :
  let st' := App.handleComponentToggle X st in
  Forall2 (fun c c' =>
             id c' = id c /\ name c' = name c /\ type c' = type c
             /\ mesh c' = mesh c /\ initialPosition c' = initialPosition c
             /\ highlighted c' = highlighted c
             /\ (id c <> X -> c' = c)
             /\ (id c = X -> visible c' = negb (visible c)))
          (App.components st) (App.components st')
  /\ (~ In X (ids (App.components st)) -> st' = st)
  /\ App.explodeAmount st' = App.explodeAmount st
  /\ App.isPanelOpen st' = App.isPanelOpen st.
Proof.
  destruct st as [cs panel amount]. simpl.
  repeat split.
  - induction cs as [|c cs IH]; simpl; constructor; [|exact IH].
    destruct (Z.eqb_spec (id c) X) as [E|E]; simpl; repeat split; congruence.
  - intro Habsent. unfold App.handleComponentToggle, App.setComponents. simpl.
    f_equal. unfold ids in Habsent.
    induction cs as [|c cs IH]; simpl in *; [reflexivity|].
    destruct (Z.eqb_spec (id c) X) as [E|E]; [exfalso; auto|].
    f_equal. apply IH. tauto.
Qed.

(** ** The explode amount *)

Section Amounts.

Local Open Scope float_scope.

(** C2, as amended.  [setExplodeAmount(v)] stores [v] as it is given; the
  stored amount is [v] clamped into [[0, 2]] exactly when [v] is neither
  below 0 nor above 2, which is what the explode slider (min 0, max 2)
  supplies; the explode toggle stores 0 or 2. *)
Theorem setExplodeAmount_stores_value (value : JS.number) (st : App.state) :
App.explodeAmount (App.setExplodeAmount value st) = value
/\ (App.explodeAmount (App.setExplodeAmount value st) = Explode.clamp value
    <-> PrimFloat.ltb value 0 = false /\ PrimFloat.ltb 2 value = false)
/\ (App.explodeAmount (App.handleToggleExplode st) = 0%float
    \/ App.explodeAmount (App.handleToggleExplode st) = 2%float).
Proof.
split; [reflexivity|]. split.
- simpl. unfold Explode.clamp. split.
  + intro Hclamp.
    destruct (PrimFloat.ltb value 0) eqn:Hlow.
    { rewrite Hclamp in Hlow. vm_compute in Hlow. discriminate. }
    destruct (PrimFloat.ltb 2 value) eqn:Hhigh; [|tauto].
    rewrite Hclamp in Hhigh. vm_compute in Hhigh. discriminate.
  + intros [-> ->]. reflexivity.
- unfold App.handleToggleExplode. simpl.
  destruct (JS.gt (App.explodeAmount st) 0); auto.
Qed.

(** C2 as stated fails: above the interval the stored amount is the value
  given, not 2, and below it the value given, not 0. *)
Lemma setExplodeAmount_does_not_clamp :
App.explodeAmount (App.setExplodeAmount 3%float App.initial) = 3%float
/\ Explode.clamp 3%float = 2%float
/\ App.explodeAmount (App.setExplodeAmount 3%float App.initial) <> Explode.clamp 3%float
/\ App.explodeAmount (App.setExplodeAmount (-1)%float App.initial) = (-1)%float
/\ App.explodeAmount (App.setExplodeAmount (-1)%float App.initial)
   <> Explode.clamp (-1)%float.
Proof.
repeat split.
- intro H. apply (f_equal (fun v => PrimFloat.ltb 2 v)) in H.
  vm_compute in H. discriminate.
- intro H. apply (f_equal (fun v => PrimFloat.ltb v 0)) in H.
  vm_compute in H. discriminate.
Qed.

End Amounts.

(** ** Measuring *)

Section Measurements.

Local Open Scope float_scope.

Lemma clone_same (v : Vector3.t) : Vector3.clone v = v.
Proof. now destruct v. Qed.

(** C3.  While measuring with one point captured, a click that hits the
  scene emits that point, the hit point and their distance as three.js
  computes it (the square root of the sum of the squared coordinate
  differences), and once the viewer has handled the call and rendered, no
  captured point remains: the stage is [Idle] (and the tool is switched off).
  The distance between (0,0,0) and (3,4,0) is 5, and the two picks of the
  scenario, from an idle active tool, emit it and end idle. *)
Theorem second_pick_emits_distance_and_resets
      (st : Measuring.state) (point1 : Vector3.t)
      (nearest : Intersection) (behind : list Intersection) :
Measuring.isMeasuring st = true ->
MeasurementSystem.points (Measuring.system st) = [point1] ->
let point2 := point nearest in
let after := Measuring.click (nearest :: behind) st in
snd after
= [ MeasurementSystem.mkMeasurement
      point1 point2
      (PrimFloat.sqrt
         ((Vector3.x point1 - Vector3.x point2) * (Vector3.x point1 - Vector3.x point2)
          + (Vector3.y point1 - Vector3.y point2) * (Vector3.y point1 - Vector3.y point2)
          + (Vector3.z point1 - Vector3.z point2) * (Vector3.z point1 - Vector3.z point2))%float) ]
/\ MeasurementSystem.stage (Measuring.system (fst after)) = MeasurementSystem.Idle
/\ MeasurementSystem.points (Measuring.system (fst after)) = []
/\ Measuring.isMeasuring (fst after) = false
/\ Vector3.distanceTo (Vector3.mk 0 0 0) (Vector3.mk 3 4 0) = 5%float
/\ (let active := Measuring.toggle Measuring.initial in
    let hit p := mkIntersection p (Sample.cube 1%Z Sample.origin) in
    let first := Measuring.click [hit (Vector3.mk 0 0 0)] active in
    let second := Measuring.click [hit (Vector3.mk 3 4 0)] (fst first) in
    MeasurementSystem.stage (Measuring.system (fst first))
    = MeasurementSystem.FirstPointCaptured
    /\ snd first = []
    /\ map MeasurementSystem.distance (snd second) = [5%float]
    /\ MeasurementSystem.stage (Measuring.system (fst second))
       = MeasurementSystem.Idle).
Proof.
intros Hactive Hone point2 after.
assert (Hclick :
          after
          = (Measuring.mk false (MeasurementSystem.mk [] [])
                          (Measuring.alerts st
                             ++ [Vector3.distanceTo point1 point2]),
             [MeasurementSystem.mkMeasurement
                point1 point2 (Vector3.distanceTo point1 point2)])).
{ subst after point2. unfold Measuring.click, MeasurementSystem.handleClick.
  rewrite Hactive, Hone, clone_same. reflexivity. }
rewrite Hclick. simpl.
repeat split; reflexivity.
Qed.

Lemma second_pick_emits_distance_and_resets_witness :
let st := Measuring.mk true (MeasurementSystem.mk [Vector3.mk 1 2 3] []) [] in
let hit := mkIntersection (Vector3.mk 1 2 5) (Sample.cube 1%Z Sample.origin) in
map MeasurementSystem.distance (snd (Measuring.click [hit] st)) = [2%float]
/\ MeasurementSystem.points (Measuring.system (fst (Measuring.click [hit] st))) = [].
Proof.
intros st hit.
destruct (second_pick_emits_distance_and_resets
            st (Vector3.mk 1 2 3) hit [] eq_refl eq_refl)
  as (Hemit & _ & Hpoints & _).
split; [|exact Hpoints].
rewrite Hemit. reflexivity.
Defined.

End Measurements.

(** ** Binary64 facts the explode offset rests on *)

Section Binary64.

Local Open Scope float_scope.










End Binary64.

(** ** The explode effect *)

Section Exploding.

Local Open Scope float_scope.

Variable matrixWorld : Object3D.t -> Vector3.t -> Vector3.t.



Lemma sameComponent_refl c : Explode.sameComponent c c.
Proof. repeat split. intros m p0 H. now exists m. Qed.

Lemma sameComponent_trans c1 c2 c3 :
  Explode.sameComponent c1 c2 -> Explode.sameComponent c2 c3 -> Explode.sameComponent c1 c3.
Proof.
  intros (I1 & P1 & E1) (I2 & P2 & E2). repeat split; try congruence.
  intros m p0 H. destruct (E1 m p0 H) as (m' & H'). exact (E2 m' p0 H').
Qed.

Lemma sameComponent_moveTo p c : Explode.sameComponent c (Explode.moveTo p c).
Proof.
  repeat split. intros m p0. unfold Explode.explodable, Explode.moveTo. simpl.
  destruct (mesh c) as [o|]; [|discriminate]. simpl.
  destruct (initialPosition c); [|discriminate].
  destruct (Object3D.geometry o); [|discriminate].
  intro H. injection H as _ <-. eauto.
Qed.

Lemma sameComponent_cache c : Explode.sameComponent c (Explode.cacheBoundingBox c).
Proof.
  repeat split. intros m p0. unfold Explode.explodable, Explode.cacheBoundingBox. simpl.
  destruct (mesh c) as [o|]; [|discriminate]. simpl.
  destruct (initialPosition c); [|discriminate].
  destruct (Object3D.geometry o); [|discriminate]. simpl.
  intro H. injection H as _ <-. eauto.
Qed.

Lemma Forall2_sameComponent_refl cs : Forall2 Explode.sameComponent cs cs.
Proof. induction cs; constructor; auto using sameComponent_refl. Qed.

Lemma Forall2_sameComponent_trans cs1 cs2 cs3 :
  Forall2 Explode.sameComponent cs1 cs2 -> Forall2 Explode.sameComponent cs2 cs3 ->
  Forall2 Explode.sameComponent cs1 cs3.
Proof.
  intro H. revert cs3. induction H; intros cs3 H'; inversion H'; subst;
    constructor; eauto using sameComponent_trans.
Qed.


(** The scale has to be finite: an infinite amount, which no slider
    position gives, turns the zero direction into NaN. *)
Example offset_with_infinite_amount :
  Explode.offsetOf infinity (Vector3.mk 0 0 0) 1 (Vector3.mk 0 0 0)
  = Vector3.mk nan nan nan.
Proof. reflexivity. Qed.

(** The turn of the loop for a component it handles, with an amount above
    0 and the centroid at hand: the initial position plus the offset. *)
Lemma explodeEach_moves amount modelCenter modelSize c cs m p0 centroid centroids :
  Explode.explodable c = Some (m, p0) ->
  JS.gt amount 0 = true ->
  hd_error (fst (Explode.explodeEach amount modelCenter modelSize (c :: cs)
                                     (centroid :: centroids)))
  = Some (Explode.moveTo
            (Vector3.add (Vector3.clone p0)
                         (Explode.offsetOf amount modelCenter modelSize centroid))
            c).
Proof.
  intros Hc Hgt. simpl. rewrite Hc, Hgt.
  now destruct (Explode.explodeEach amount modelCenter modelSize cs centroids).
Qed.

(** Whatever the amount, the loop keeps each component's identity. *)
Lemma explodeEach_same amount modelCenter modelSize cs :
  forall centroids,
    Forall2 Explode.sameComponent cs
            (fst (Explode.explodeEach amount modelCenter modelSize cs centroids)).
Proof.
  induction cs as [|c cs IH]; intro centroids; simpl; [constructor|].
  destruct (Explode.explodable c) as [[m p0]|].
  - destruct (JS.gt amount 0).
    + destruct centroids as [|centroid centroids]; simpl.
      * constructor; [apply sameComponent_moveTo|apply Forall2_sameComponent_refl].
      * specialize (IH centroids).
        destruct (Explode.explodeEach amount modelCenter modelSize cs centroids).
        constructor; [apply sameComponent_moveTo|exact IH].
    + specialize (IH (tl centroids)).
      destruct (Explode.explodeEach amount modelCenter modelSize cs (tl centroids)).
      constructor; [apply sameComponent_moveTo|exact IH].
  - specialize (IH (tl centroids)).
    destruct (Explode.explodeEach amount modelCenter modelSize cs (tl centroids)).
    constructor; [apply sameComponent_refl|exact IH].
Qed.

Lemma cache_same cs : Forall2 Explode.sameComponent cs (map Explode.cacheBoundingBox cs).
Proof. induction cs; simpl; constructor; auto using sameComponent_cache. Qed.

Lemma effect_same amount cs centroids :
  Forall2 Explode.sameComponent cs (fst (Explode.effect matrixWorld amount cs centroids)).
Proof.
  unfold Explode.effect.
  destruct cs as [|c cs]; [constructor|].
  destruct centroids as [|centroid centroids]; [apply Forall2_sameComponent_refl|].
  eapply Forall2_sameComponent_trans; [apply cache_same|apply explodeEach_same].
Qed.

Lemma replay_same history centroids :
  forall cs, Forall2 Explode.sameComponent cs (Explode.replay matrixWorld history centroids cs).
Proof.
  unfold Explode.replay.
  induction history as [|amount history IH]; intro cs; simpl.
  - apply Forall2_sameComponent_refl.
  - eapply Forall2_sameComponent_trans; [apply effect_same|apply IH].
Qed.

(** With an amount that is not above 0 the loop never reads a centroid: it
    ends normally, every component it handles back at its initial position. *)
Lemma explodeEach_settles amount modelCenter modelSize cs :
  JS.gt amount 0 = false ->
  forall centroids,
    snd (Explode.explodeEach amount modelCenter modelSize cs centroids) = false
    /\ Forall2 Explode.settled cs
               (fst (Explode.explodeEach amount modelCenter modelSize cs centroids)).
Proof.
  intro Hgt. induction cs as [|c cs IH]; intro centroids; simpl; [now split|].
  destruct (IH (tl centroids)) as (Hend & Hrest).
  destruct (Explode.explodable c) as [[m p0]|] eqn:Hc.
  - rewrite Hgt.
    destruct (Explode.explodeEach amount modelCenter modelSize cs (tl centroids)).
    simpl in *. split; [exact Hend|]. constructor; [|exact Hrest].
    split; [apply sameComponent_moveTo|].
    intros m1 p1 H1. rewrite Hc in H1. injection H1 as <- <-.
    unfold Explode.explodable in Hc. unfold Explode.moveTo. simpl.
    destruct (mesh c) as [o|]; [|discriminate]. simpl.
    exists (Object3D.set_position (Vector3.clone p0) o). split; [reflexivity|].
    simpl. now destruct p0.
  - destruct (Explode.explodeEach amount modelCenter modelSize cs (tl centroids)).
    simpl in *. split; [exact Hend|]. constructor; [|exact Hrest].
    split; [apply sameComponent_refl|]. intros m p0 H. rewrite Hc in H. discriminate.
Qed.

Lemma settled_after c1 c2 c3 : Explode.sameComponent c1 c2 -> Explode.settled c2 c3 -> Explode.settled c1 c3.
Proof.
  intros H12 (H23 & Hpos). split; [eapply sameComponent_trans; eauto|].
  intros m p0 H. destruct H12 as (_ & _ & E). destruct (E m p0 H) as (m' & H').
  exact (Hpos m' p0 H').
Qed.

Lemma Forall2_settled_after cs1 cs2 cs3 :
  Forall2 Explode.sameComponent cs1 cs2 -> Forall2 Explode.settled cs2 cs3 -> Forall2 Explode.settled cs1 cs3.
Proof.
  intro H. revert cs3. induction H; intros cs3 H'; inversion H'; subst;
    constructor; eauto using settled_after.
Qed.

(** C4.  With centroids cached, the explode effect at amount 0 ends
    normally and leaves every component the loop handles (one with a mesh, a
    geometry and an initial position) at exactly its initial position, with
    its id and initial position as they were before any explode, whatever the
    amounts the effect ran with before. *)
Theorem explode_zero_restores_initial_positions
        (components : list Component) (originalCentroids : list Vector3.t)
        (history : list JS.number) :
  originalCentroids <> [] ->
  let exploded := Explode.replay matrixWorld history originalCentroids components in
  let final := Explode.effect matrixWorld 0 exploded originalCentroids in
  snd final = false
  /\ Forall2 (fun c c' =>
                id c' = id c
                /\ initialPosition c' = initialPosition c
                /\ forall m p0,
                    Explode.explodable c = Some (m, p0) ->
                    exists m', mesh c' = Some m' /\ Object3D.position m' = p0)
             components (fst final).
Proof.
  intros Hcached exploded final.
  assert (Hfinal : snd final = false /\ Forall2 Explode.settled exploded (fst final)).
  { subst final. unfold Explode.effect.
    destruct exploded as [|c cs]; [split; [reflexivity|constructor]|].
    destruct originalCentroids as [|centroid centroids]; [contradiction|].
    match goal with
    | |- context [Explode.explodeEach ?a ?mc ?ms ?l ?cts] =>
      destruct (explodeEach_settles a mc ms l eq_refl cts) as (Hend & Hrest)
    end.
    split; [exact Hend|].
    eapply Forall2_settled_after; [apply cache_same|exact Hrest]. }
  destruct Hfinal as (Hend & Hsettled). split; [exact Hend|].
  assert (Hall : Forall2 Explode.settled components (fst final)).
  { eapply Forall2_settled_after; [apply replay_same|exact Hsettled]. }
  clear - Hall. induction Hall as [|c c' cs cs' H Hrest IH]; constructor; [|exact IH].
  destruct H as ((Hid & Hp & _) & Hpos). auto.
Qed.

End Exploding.

Lemma explode_zero_restores_initial_positions_witness :
  let final :=
    Explode.effect Sample.translation 0%float
      (Explode.replay Sample.translation [2; 0.5]%float
                      [Vector3.mk 0.5 0.5 0.5; Vector3.mk 4.5 0.5 0.5]%float
                      [Sample.wall; Sample.slab])
      [Vector3.mk 0.5 0.5 0.5; Vector3.mk 4.5 0.5 0.5]%float in
  snd final = false /\ List.length (fst final) = 2%nat.
Proof.
  intro final.
  destruct (explode_zero_restores_initial_positions
              Sample.translation [Sample.wall; Sample.slab]
              [Vector3.mk 0.5 0.5 0.5; Vector3.mk 4.5 0.5 0.5]%float
              [2; 0.5]%float)
    as (Hend & Hall).
  - discriminate.
  - split; [exact Hend|].
    apply Forall2_length in Hall. symmetry. exact Hall.
Defined.

(** ** Clipping planes *)

Section Clipping.

Import ClippingPlanes.

Lemma assign_planes planes mat :
  Material.clippingPlanes (assign planes mat) = Some planes.
Proof. reflexivity. Qed.

(** A second assignment replaces the first. *)
Lemma assign_assign planes planes' mat :
  assign planes (assign planes' mat) = assign planes mat.
Proof. reflexivity. Qed.

Lemma forEachMaterial_twice planes planes' slot :
  forEachMaterial (assign planes) (forEachMaterial (assign planes') slot)
  = forEachMaterial (assign planes) slot.
Proof.
  destruct slot as [mat|mats]; simpl; [reflexivity|].
  f_equal. rewrite map_map. apply map_ext. intro. apply assign_assign.
Qed.

Lemma visit_visit planes planes' child :
  visit planes (visit planes' child) = visit planes child.
Proof.
  unfold visit. destruct child as [isMesh pos geo [slot|] eid]; simpl;
    destruct isMesh; simpl; try reflexivity.
  unfold Object3D.set_material. simpl. now rewrite forEachMaterial_twice.
Qed.

Lemma onMesh_visit_visit planes planes' c :
  onMesh (visit planes) (onMesh (visit planes') c) = onMesh (visit planes) c.
Proof.
  unfold onMesh. simpl. destruct (mesh c); simpl; [|reflexivity].
  now rewrite visit_visit.
Qed.

Lemma materialsOf_forEach f slot :
  materialsOf (forEachMaterial f slot) = map f (materialsOf slot).
Proof. now destruct slot. Qed.

(** The traversal reaches every clippable material of a component. *)
Lemma clippable_visit planes c :
  clippable (onMesh (visit planes) c) = map (assign planes) (clippable c).
Proof.
  unfold clippable, onMesh, visit. simpl.
  destruct (mesh c) as [[isMesh pos geo [slot|] eid]|]; simpl; try reflexivity;
    destruct isMesh; simpl; try reflexivity.
  apply materialsOf_forEach.
Qed.

Lemma traversed_carry planes scene c mat :
  In c (components (traverse planes scene)) -> In mat (clippable c) ->
  Material.clippingPlanes mat = Some planes.
Proof.
  simpl. intros Hc Hmat. apply in_map_iff in Hc as (c0 & <- & _).
  rewrite clippable_visit in Hmat. apply in_map_iff in Hmat as (mat0 & <- & _).
  apply assign_planes.
Qed.

Lemma sameProps_mode p q : isSplitMode p <> isSplitMode q -> sameProps p q = false.
Proof.
  unfold sameProps. destruct (isSplitMode p), (isSplitMode q); simpl; congruence.
Qed.

Lemma effect_on p scene :
  isSplitMode p = true ->
  effect p scene
  = traverse [planeOf p]
             (mkScene (components scene) (others scene)
                      (Some (mkPlaneHelper (planeOf p) 10%float 65280%Z helperFill))).
Proof. intro H. unfold effect. now rewrite H. Qed.

(** The scene the clipping effect has just run on (the part of C7 the code
    keeps).  With split mode on: after the effect every clippable material of
    every component carries exactly the one plane of the current axis and
    position, also after a change of axis or position (the assignment replaces
    the previous one); switching split mode off leaves every such material
    with an empty plane list and no plane helper in the scene; and on, off, on
    with the same axis and position gives the same scene as on alone.  The
    components and the number of their materials are the scene's own. *)
Theorem clip_assignment_replaces_and_clears (on : Props) (scene : Scene) :
  isSplitMode on = true ->
  let off := mkProps false (splitPosition on) (clipAxis on) in
  let active := effect on scene in
  let inactive := update on off active in
  (forall c mat, In c (components active) -> In mat (clippable c) ->
                 Material.clippingPlanes mat = Some [planeOf on])
  /\ (forall position axis c mat,
         let moved := mkProps true position axis in
         In c (components (update on moved active)) -> In mat (clippable c) ->
         Material.clippingPlanes mat = Some [planeOf moved])
  /\ (forall c mat, In c (components inactive) -> In mat (clippable c) ->
                    Material.clippingPlanes mat = Some [])
  /\ planeHelper inactive = None
  /\ update off on inactive = active
  /\ map (fun c => (id c, List.length (clippable c))) (components active)
     = map (fun c => (id c, List.length (clippable c))) (components scene).
Proof.
  intros Hon off active inactive.
  assert (Hactive : active
                    = traverse [planeOf on]
                        (mkScene (components scene) (others scene)
                                 (Some (mkPlaneHelper (planeOf on) 10%float 65280%Z helperFill)))).
  { subst active. now apply effect_on. }
  assert (Hinactive : inactive = traverse [] (cleanup active)).
  { subst inactive. unfold update.
    rewrite sameProps_mode by (subst off; simpl; rewrite Hon; discriminate).
    rewrite Hon. reflexivity. }
  repeat split.
  - intros c mat. rewrite Hactive. apply traversed_carry.
  - intros position axis c mat moved. unfold update.
    destruct (sameProps on moved) eqn:Hsame.
    + unfold sameProps in Hsame.
      apply andb_prop in Hsame as (Hsame & Haxis).
      apply andb_prop in Hsame as (_ & Hposition).
      apply String.eqb_eq in Haxis. apply FloatAxioms.Leibniz.eqb_spec in Hposition.
      assert (Hplane : planeOf moved = planeOf on).
      { unfold planeOf. subst moved. simpl in *. now rewrite <- Haxis, <- Hposition. }
      rewrite Hplane, Hactive. apply traversed_carry.
    + rewrite (effect_on moved) by reflexivity. apply traversed_carry.
  - intros c mat. rewrite Hinactive. apply traversed_carry.
  - rewrite Hinactive. reflexivity.
  - unfold update. rewrite sameProps_mode by (subst off; simpl; rewrite Hon; discriminate).
    subst off. simpl. unfold effect. rewrite Hon. simpl.
    rewrite Hinactive, Hactive. unfold cleanup, traverse. simpl.
    f_equal; rewrite !map_map; apply map_ext; intro.
    + now rewrite !onMesh_visit_visit.
    + now rewrite !visit_visit.
  - rewrite Hactive. simpl. rewrite map_map. apply map_ext. intro c.
    now rewrite clippable_visit, length_map.
Qed.

Lemma clip_assignment_replaces_and_clears_witness :
  update (mkProps false 50%float "x") Sample.splitAtMiddle
         (update Sample.splitAtMiddle (mkProps false 50%float "x")
                 (effect Sample.splitAtMiddle Sample.canvas))
  = effect Sample.splitAtMiddle Sample.canvas.
Proof.
  exact (proj1 (proj2 (proj2 (proj2 (proj2
           (clip_assignment_replaces_and_clears
              Sample.splitAtMiddle Sample.canvas eq_refl)))))).
Defined.

End Clipping.

(** ** Decoding *)

Section Decoding.

Import Decoder.

Local Open Scope Z_scope.

Lemma setAdd_spec s v x : In x (setAdd s v) <-> In x s \/ x = v.
Proof.
  unfold setAdd. destruct (existsb (Z.eqb v) s) eqn:E.
  - split; [tauto|]. intros [H| ->]; [exact H|].
    apply existsb_exists in E as (y & Hy & Hvy).
    apply Z.eqb_eq in Hvy. now subst.
  - rewrite in_app_iff. simpl. intuition.
Qed.

Lemma setAdd_NoDup s v : NoDup s -> NoDup (setAdd s v).
Proof.
  intro H. unfold setAdd. destruct (existsb (Z.eqb v) s) eqn:E; [exact H|].
  apply NoDup_app; [exact H|repeat constructor; simpl; tauto|].
  intros x Hx Hin. simpl in Hin. destruct Hin as [<-|[]].
  assert (Htrue : existsb (Z.eqb v) s = true).
  { apply existsb_exists. exists v. split; [exact Hx|apply Z.eqb_refl]. }
  congruence.
Qed.

(** The scan keeps the positive ids of the array, each once. *)
Lemma collect_from idsArray :
  forall s,
    NoDup s ->
    let r := fold_left (fun uniqueIDs v =>
                          if Z.ltb 0 v then setAdd uniqueIDs v else uniqueIDs)
                       idsArray s in
    NoDup r /\ forall x, In x r <-> In x s \/ (In x idsArray /\ 0 < x).
Proof.
  induction idsArray as [|v rest IH]; intros s Hs; simpl.
  - split; [exact Hs|]. intro x. tauto.
  - destruct (Z.ltb_spec 0 v) as [Hpos|Hneg].
    + destruct (IH (setAdd s v) (setAdd_NoDup s v Hs)) as (Hnodup & Hin).
      split; [exact Hnodup|]. intro x. rewrite Hin, setAdd_spec.
      split; [intros [[H|H]|H]; subst; tauto|].
      intros [H|[[H|H] Hx]]; subst; tauto.
    + destruct (IH s Hs) as (Hnodup & Hin).
      split; [exact Hnodup|]. intro x. rewrite Hin.
      split; [tauto|]. intros [H|[[H|H] Hx]]; subst; [tauto|lia|tauto].
Qed.

Lemma collectIDs_distinct_positive idsArray :
  NoDup (collectIDs idsArray)
  /\ forall x, In x (collectIDs idsArray) <-> In x idsArray /\ 0 < x.
Proof.
  destruct (collect_from idsArray [] (NoDup_nil Z)) as (Hnodup & Hin).
  split; [exact Hnodup|]. intro x. unfold collectIDs. rewrite Hin. simpl. tauto.
Qed.

(** One turn of the loop: a surviving id appends its component, any other
    id adds one to the failure count, and the loop goes on either way. *)
Lemma processID_cases model acc v :
  (survives model v = true
   /\ exists c, processID model acc v
                = mkProgress (extracted acc ++ [c]) (S (processedCount acc))
                             (failedCount acc)
                /\ id c = v /\ highlighted c = false /\ visible c = true)
  \/ (survives model v = false /\ processID model acc v = failed acc).
Proof.
  unfold survives, lookupFails, processID.
  destruct (createSubset model v) as [subset|]; [|now right].
  destruct (getItemProperties model v) as [message| |props]; try now right.
  destruct (props_type props) as [t|]; [|now right].
  left. split; [reflexivity|]. eexists. now split.
Qed.

Lemma processIDs_from model uniqueIDs :
  forall acc,
    let r := fold_left (processID model) uniqueIDs acc in
    ids (extracted r) = ids (extracted acc) ++ filter (survives model) uniqueIDs
    /\ failedCount r
       = (failedCount acc
          + List.length (filter (fun v => negb (survives model v)) uniqueIDs))%nat
    /\ processedCount r
       = (processedCount acc + List.length (filter (survives model) uniqueIDs))%nat
    /\ (Forall (fun c => highlighted c = false) (extracted acc) ->
        Forall (fun c => highlighted c = false) (extracted r)).
Proof.
  induction uniqueIDs as [|v rest IH]; intro acc; simpl.
  - rewrite app_nil_r. repeat split; auto; lia.
  - destruct (processID_cases model acc v)
      as [(Hs & c & -> & Hid & Hh & _)|(Hs & ->)]; rewrite Hs; simpl.
    + destruct (IH (mkProgress (extracted acc ++ [c]) (S (processedCount acc))
                               (failedCount acc)))
        as (Hids & Hfailed & Hprocessed & Hclear).
      simpl in *. repeat split.
      * rewrite Hids. unfold ids. rewrite map_app, <- app_assoc. simpl. now rewrite Hid.
      * exact Hfailed.
      * rewrite Hprocessed. lia.
      * intro H. apply Hclear. apply Forall_app. split; [exact H|].
        now constructor.
    + destruct (IH (failed acc)) as (Hids & Hfailed & Hprocessed & Hclear).
      simpl in *. repeat split; auto. rewrite Hfailed. lia.
Qed.

Lemma extracted_ids model uniqueIDs :
  ids (extracted (processIDs model uniqueIDs)) = filter (survives model) uniqueIDs.
Proof. apply (processIDs_from model uniqueIDs (mkProgress [] 0 0)). Qed.

(** What the decoder extracts is not highlighted and has distinct ids. *)
Lemma extracted_fresh model idsArray :
  NoDup (ids (extracted (processIDs model (collectIDs idsArray))))
  /\ Forall (fun c => highlighted c = false)
            (extracted (processIDs model (collectIDs idsArray))).
Proof.
  split.
  - rewrite extracted_ids. apply NoDup_filter, collectIDs_distinct_positive.
  - apply (processIDs_from model (collectIDs idsArray) (mkProgress [] 0 0)).
    constructor.
Qed.

Lemma filter_split (keep : Z -> bool) (l : list Z) :
  (List.length (filter keep l) + List.length (filter (fun v => negb (keep v)) l)
   = List.length l)%nat.
Proof.
  induction l as [|v l IH]; simpl; [reflexivity|].
  destruct (keep v); simpl; lia.
Qed.

(** The messages of the [catch] clause are not the empty-model message. *)
Lemma rejection_not_empty_model errorMessage :
  rejection errorMessage <> noValidComponents.
Proof.
  unfold rejection, noValidComponents.
  destruct (Str.includes errorMessage "WASM" || Str.includes errorMessage "WebAssembly")%bool;
    [discriminate|].
  destruct (Str.includes errorMessage "network" || Str.includes errorMessage "fetch")%bool;
    discriminate.
Qed.

(** C8.  Once the model is loaded with its id attribute: the ids processed
    are the distinct positive values of the attribute array; the components
    extracted are, in first-seen order, those of the ids whose subset and
    property lookup succeed with a type field; every other id is left out and
    adds one to the failure counter, the loop going on to the ids after it;
    the load is rejected with the empty-model message exactly when no id
    survives, and resolves with the extracted components otherwise.  With 10
    distinct positive ids of which 2 fail, it resolves with 8 components and
    the failure counter is 2.  No other failure of [loadIFCFile] gives the
    empty-model message. *)
Theorem failed_ids_are_skipped_and_counted (m : IfcModel) (idsArray : list Z) :
  expressIDAttr m = Some idsArray ->
  let uniqueIDs := collectIDs idsArray in
  let acc := processIDs m uniqueIDs in
  (NoDup uniqueIDs /\ forall v, In v uniqueIDs <-> In v idsArray /\ 0 < v)
  /\ ids (extracted acc) = filter (survives m) uniqueIDs
  /\ (forall v, In v uniqueIDs -> lookupFails m v = true ->
                ~ In v (ids (extracted acc)))
  /\ failedCount acc
     = List.length (filter (fun v => negb (survives m v)) uniqueIDs)
  /\ processedCount acc = List.length (extracted acc)
  /\ (loadIFCFile (Loaded m) = inl noValidComponents
      <-> filter (survives m) uniqueIDs = [])
  /\ (filter (survives m) uniqueIDs <> [] ->
      loadIFCFile (Loaded m) = inr (mkResult (extracted acc) m, acc))
  /\ (List.length uniqueIDs = 10%nat ->
      List.length (filter (fun v => negb (survives m v)) uniqueIDs) = 2%nat ->
      exists result progress,
        loadIFCFile (Loaded m) = inr (result, progress)
        /\ List.length (components result) = 8%nat
        /\ failedCount progress = 2%nat)
  /\ (forall decoded,
         loadIFCFile decoded = inl noValidComponents ->
         exists m' idsArray',
           decoded = Loaded m' /\ expressIDAttr m' = Some idsArray'
           /\ filter (survives m') (collectIDs idsArray') = []).
Proof.
  intros Hattr uniqueIDs acc.
  destruct (processIDs_from m uniqueIDs (mkProgress [] 0 0))
    as (Hids & Hfailed & Hprocessed & _).
  fold (processIDs m uniqueIDs) in Hids, Hfailed, Hprocessed. fold acc in Hids, Hfailed, Hprocessed.
  simpl in Hids, Hfailed, Hprocessed.
  assert (Hlen : List.length (extracted acc)
                 = List.length (filter (survives m) uniqueIDs)).
  { rewrite <- Hids. unfold ids. now rewrite length_map. }
  assert (Hload : loadIFCFile (Loaded m)
                  = match extracted acc with
                    | [] => inl noValidComponents
                    | _ => inr (mkResult (extracted acc) m, acc)
                    end).
  { simpl. unfold extract. now rewrite Hattr. }
  split; [apply collectIDs_distinct_positive|].
  split; [exact Hids|].
  split.
  { intros v _ Hfails. rewrite Hids, filter_In. intros [_ Hs].
    unfold survives in Hs. rewrite Hfails in Hs.
    destruct (createSubset m v); discriminate. }
  split; [exact Hfailed|].
  split; [congruence|].
  split.
  { rewrite Hload. destruct (extracted acc) as [|c cs] eqn:E.
    - split; [|reflexivity]. intros _.
      destruct (filter (survives m) uniqueIDs); [reflexivity|discriminate].
    - split; [discriminate|]. intro Hnone. rewrite Hnone in Hlen. discriminate. }
  split.
  { intro Hsome. rewrite Hload. destruct (extracted acc) as [|c cs] eqn:E; [|reflexivity].
    destruct (filter (survives m) uniqueIDs); [contradiction|discriminate]. }
  split.
  { intros Hten Htwo.
    pose proof (filter_split (survives m) uniqueIDs) as Hsplit.
    exists (mkResult (extracted acc) m), acc. rewrite Hload.
    assert (Height : List.length (extracted acc) = 8%nat) by lia.
    destruct (extracted acc) as [|c cs] eqn:E; [discriminate|].
    repeat split; simpl; [exact Height|lia]. }
  intros decoded Hempty.
  assert (Hcatch : forall e B, @inl string B (rejection e) <> inl noValidComponents).
  { intros e B H. apply (rejection_not_empty_model e). congruence. }
  destruct decoded as [message|message|m']; unfold loadIFCFile in Hempty.
  - now apply Hcatch in Hempty.
  - now apply Hcatch in Hempty.
  - unfold extract in Hempty.
    destruct (expressIDAttr m') as [a|] eqn:Hattr'; [|now apply Hcatch in Hempty].
    exists m', a. split; [reflexivity|]. split; [exact Hattr'|].
    rewrite <- (extracted_ids m' (collectIDs a)).
    destruct (extracted (processIDs m' (collectIDs a))); [reflexivity|discriminate].
Qed.

Lemma failed_ids_are_skipped_and_counted_witness :
  exists result progress,
    loadIFCFile (Loaded Sample.tower) = inr (result, progress)
    /\ List.length (components result) = 8%nat
    /\ failedCount progress = 2%nat.
Proof.
  refine (proj1 (proj2 (proj2 (proj2 (proj2 (proj2 (proj2 (proj2
            (failed_ids_are_skipped_and_counted Sample.tower _ eq_refl))))))))
            _ _); reflexivity.
Defined.

End Decoding.

(** ** Uploading *)

Section Uploading.

Import Upload.

Local Open Scope Z_scope.
Local Open Scope string_scope.

(** C9.  A file whose name, in lower case, does not end with [.ifc], or
    whose size is strictly above 100 * 1024 * 1024 bytes, makes the handler
    return with a validation error set and without reaching [loadIFCFile]:
    whatever the decoder would do, the component list and the rest of the
    App state, the manager, the model id and the loading flag are as they
    were.  Any file with the extension and a size up to that limit, the
    limit included, goes on to decoding. *)
Theorem invalid_files_are_rejected_before_decoding
        (file : File) (st : App.state * Viewer) :
  Str.endsWith (Str.toLowerCase (fileName file)) ".ifc" = false
  \/ 100 * 1024 * 1024 < size file ->
  (exists e,
      handleFileUpload (Some file) st = Return (fst st, setError (Some e) (snd st))
      /\ (e = invalidFile \/ e = fileTooLarge))
  /\ decodes (handleFileUpload (Some file) st) = false
  /\ (forall decode,
         let st' := run decode (handleFileUpload (Some file) st) in
         fst st' = fst st
         /\ App.components (fst st') = App.components (fst st)
         /\ ifcManager (snd st') = ifcManager (snd st)
         /\ modelID (snd st') = modelID (snd st)
         /\ loading (snd st') = loading (snd st)
         /\ error (snd st') <> None)
  /\ (forall other,
         Str.endsWith (Str.toLowerCase (fileName other)) ".ifc" = true ->
         size other <= 100 * 1024 * 1024 ->
         decodes (handleFileUpload (Some other) st) = true).
Proof.
  intro Hbad. destruct st as [app viewer].
  assert (Hreturn : exists e,
             handleFileUpload (Some file) (app, viewer)
             = Return (app, setError (Some e) viewer)
             /\ (e = invalidFile \/ e = fileTooLarge)).
  { unfold handleFileUpload.
    destruct (Str.endsWith (Str.toLowerCase (fileName file)) ".ifc") eqn:Hext; simpl.
    - destruct Hbad as [Hbad|Hbig]; [discriminate|].
      unfold maxSize. destruct (Z.ltb_spec (100 * 1024 * 1024) (size file)); [|lia].
      exists fileTooLarge. auto.
    - exists invalidFile. auto. }
  destruct Hreturn as (e & Hreturn & He).
  split; [exists e; auto|]. rewrite Hreturn. simpl.
  split; [reflexivity|]. split.
  - intro decode. repeat split. discriminate.
  - intros other Hext Hsize. unfold handleFileUpload. rewrite Hext. simpl.
    unfold maxSize. destruct (Z.ltb_spec (100 * 1024 * 1024) (size other)); [lia|].
    reflexivity.
Qed.

Lemma invalid_files_are_rejected_before_decoding_witness :
  decodes (handleFileUpload (Some (mkFile "plan.pdf" 10)) Session.initial) = false
  /\ decodes (handleFileUpload (Some (mkFile "Tower.IFC" 104857601)) Session.initial)
     = false.
Proof.
  split.
  - refine (proj1 (proj2 (invalid_files_are_rejected_before_decoding
                            (mkFile "plan.pdf" 10) Session.initial _))).
    left. reflexivity.
  - refine (proj1 (proj2 (invalid_files_are_rejected_before_decoding
                            (mkFile "Tower.IFC" 104857601) Session.initial _))).
    right. reflexivity.
Defined.

(** The extension is compared in lower case, and the size limit is not
    itself rejected. *)
Example upload_accepts :
  decodes (handleFileUpload (Some (mkFile "Tower.IFC" 104857600)) Session.initial) = true
  /\ decodes (handleFileUpload (Some (mkFile "tower.ifc.bak" 1)) Session.initial) = false
  /\ maxSize = 104857600.
Proof. repeat split. Qed.

End Uploading.

(** ** The single-highlight invariant *)

Section Invariant.

Lemma highlightCount cs :
  List.length (filter highlighted cs) = List.length (highlightedIds cs).
Proof. unfold highlightedIds. now rewrite length_map. Qed.

Lemma wellFormed_nil : wellFormed [].
Proof. split; [constructor|simpl; lia]. Qed.

Lemma wellFormed_pick X cs : wellFormed cs -> wellFormed (listRowClick X cs).
Proof.
  intros (Hnodup & _). split.
  - now rewrite ids_listRowClick.
  - rewrite highlightCount, highlightedIds_pick. now apply filter_at_most_one.
Qed.

Lemma wellFormed_toggleHighlight X cs :
  wellFormed cs -> wellFormed (App.toggleHighlight X cs).
Proof.
  intros (Hnodup & _). split.
  - now rewrite ids_toggleHighlight.
  - rewrite highlightCount, highlightedIds_toggle, length_map.
    etransitivity; [apply components_with_id|]. now apply filter_at_most_one.
Qed.

Lemma wellFormed_toggleVisible X cs :
  wellFormed cs -> wellFormed (App.toggleVisible X cs).
Proof.
  intros (Hnodup & Hone). split.
  - now rewrite ids_toggleVisible.
  - now rewrite highlightCount, highlightedIds_toggleVisible, <- highlightCount.
Qed.

Lemma wellFormed_listRowCheck X b cs :
  wellFormed cs -> wellFormed (listRowCheck X b cs).
Proof.
  intros (Hnodup & Hone). split.
  - now rewrite ids_listRowCheck.
  - now rewrite highlightCount, highlightedIds_listRowCheck, <- highlightCount.
Qed.

Lemma wellFormed_sceneClick intersects app :
  wellFormed (App.components app) ->
  wellFormed (App.components (sceneClick intersects app)).
Proof.
  intro H. unfold sceneClick, handleSceneClick.
  destruct intersects as [|hit rest]; [exact H|].
  destruct (Object3D.expressID (object hit)) as [expressID|]; [|exact H].
  destruct (Z.eqb expressID 0); [exact H|].
  exact (wellFormed_pick expressID (App.components app) H).
Qed.

Lemma none_highlighted cs :
  Forall (fun c => highlighted c = false) cs -> filter highlighted cs = [].
Proof.
  induction 1 as [|c cs Hc _ IH]; simpl; [reflexivity|]. now rewrite Hc.
Qed.

(** What [loadIFCFile] resolves with is a well-formed registry. *)
Lemma wellFormed_loaded decoded result progress :
  Decoder.loadIFCFile decoded = inr (result, progress) ->
  wellFormed (Decoder.components result).
Proof.
  destruct decoded as [message|message|m]; simpl; try discriminate.
  unfold Decoder.extract.
  destruct (Decoder.expressIDAttr m) as [idsArray|]; [|discriminate].
  destruct (extracted_fresh m idsArray) as (Hnodup & Hclear).
  destruct (Decoder.extracted (Decoder.processIDs m (Decoder.collectIDs idsArray)))
    as [|c cs] eqn:E; [discriminate|].
  intro H. injection H as <- _. simpl. split; [exact Hnodup|].
  rewrite (none_highlighted _ Hclear). simpl. lia.
Qed.

Lemma wellFormed_after_load st decoded :
  wellFormed (Session.registry st) ->
  wellFormed (Session.registry (Upload.loaded st (Decoder.loadIFCFile decoded))).
Proof.
  intro H. destruct st as [app viewer]. unfold Upload.loaded.
  destruct (Decoder.loadIFCFile decoded) as [message|[result progress]] eqn:E;
    [exact H|].
  unfold Session.registry. simpl. eapply wellFormed_loaded. exact E.
Qed.

(** Every event keeps the registry well formed. *)
Lemma handle_wellFormed e st :
  wellFormed (Session.registry st) -> wellFormed (Session.registry (Session.handle e st)).
Proof.
  intro H. destruct st as [app viewer]. unfold Session.registry in *. simpl in H.
  destruct e; simpl.
  - now apply wellFormed_toggleHighlight.
  - now apply wellFormed_toggleVisible.
  - now apply wellFormed_sceneClick.
  - now apply wellFormed_pick.
  - now apply wellFormed_listRowCheck.
  - exact H.
  - apply wellFormed_nil.
  - destruct files as [file|]; simpl; [|exact H].
    destruct (Str.endsWith (Str.toLowerCase (Upload.fileName file)) ".ifc"); simpl;
      [|exact H].
    destruct (Z.ltb Upload.maxSize (Upload.size file)); simpl; [exact H|].
    apply (wellFormed_after_load (app, _)). exact H.
  - apply (wellFormed_after_load (app, _)). exact H.
  - apply wellFormed_nil.
Qed.

Lemma run_wellFormed events :
  forall st, wellFormed (Session.registry st) ->
             wellFormed (Session.registry
                           (fold_left (fun st e => Session.handle e st) events st)).
Proof.
  induction events as [|e events IH]; intros st H; simpl; [exact H|].
  apply IH. now apply handle_wellFormed.
Qed.

(** C5.  After any sequence of events (the panel's highlight and visibility
    buttons, scene picks, the rows of the viewer's list, the explode slider,
    clearing, uploads and loads with any decoder outcome, the error
    boundary's reset), from the initial empty registry, at most one component
    of the registry is highlighted (and the ids are pairwise distinct). *)
Theorem at_most_one_highlighted (events : list Session.Event) :
  (List.length (filter highlighted (Session.registry (Session.run events))) <= 1)%nat
  /\ NoDup (ids (Session.registry (Session.run events))).
Proof.
  destruct (run_wellFormed events Session.initial wellFormed_nil) as (Hnodup & Hone).
  split; assumption.
Qed.

End Invariant.

(** * Further properties of the code *)

(** ** The registry handlers *)

Section RegistryHandlers.

Implicit Types (cs : list Component) (c : Component) (X Y : Z).

Lemma with_visible_same c : with_visible (visible c) c = c.
Proof. now destruct c. Qed.

Lemma map_same {A} (f : A -> A) (l : list A) :
  (forall a, In a l -> f a = a) -> map f l = l.
Proof.
  induction l as [|a l IH]; simpl; intro H; [reflexivity|].
  rewrite (H a) by now left. f_equal. apply IH. intros b Hb. apply H. now right.
Qed.

(** X1.  Pressing a component's visibility checkbox twice gives back the
    state it started from, field for field. *)
Theorem toggle_twice_restores (st : App.state) (X : Z) :
  App.handleComponentToggle X (App.handleComponentToggle X st) = st.
Proof.
  destruct st as [cs panel amount].
  unfold App.handleComponentToggle, App.setComponents, App.toggleVisible. simpl.
  f_equal. rewrite map_map. apply map_same. intros c _.
  destruct (Z.eqb (id c) X) eqn:E; simpl; rewrite E; [|reflexivity].
  destruct c as [i n t m v h p]. unfold with_visible. simpl.
  now rewrite negb_involutive.
Qed.

(** X2.  The panel's highlight button writes the [highlighted] field only:
    ids, names, types, meshes, visibility and initial positions stay, the
    length and order of the list too; the target's flag is negated and every
    other flag is false.  Pressed twice on the same component it leaves the
    target as it was and every other component not highlighted. *)
Theorem panel_highlight_writes_only_highlighted (st : App.state) (X : Z) :
  Forall2 (fun c c' =>
             id c' = id c /\ name c' = name c /\ type c' = type c
             /\ mesh c' = mesh c /\ visible c' = visible c
             /\ initialPosition c' = initialPosition c
             /\ highlighted c'
                = if Z.eqb (id c) X then negb (highlighted c) else false)
          (App.components st)
          (App.components (App.handleComponentHighlight X st))
  /\ App.explodeAmount (App.handleComponentHighlight X st) = App.explodeAmount st
  /\ App.components
       (App.handleComponentHighlight X (App.handleComponentHighlight X st))
     = map (fun c => if Z.eqb (id c) X then c else with_highlighted false c)
           (App.components st).
Proof.
  destruct st as [cs panel amount]. simpl. repeat split.
  - induction cs as [|c cs IH]; simpl; constructor; [|exact IH].
    destruct (Z.eqb (id c) X); simpl; repeat split.
  - unfold App.toggleHighlight. rewrite map_map. apply map_ext. intro c.
    destruct (Z.eqb (id c) X) eqn:E; simpl; rewrite E; [|reflexivity].
    destruct c as [i n t m v h p]. unfold with_highlighted. simpl.
    now rewrite negb_involutive.
Qed.

(** X3.  A scene click whose nearest hit carries a non-zero expressID [X]
    and a click on [X]'s row in the viewer's list produce the same component
    list; of two picks in a row only the second shows; and a click that hits
    nothing, or an object without expressID or with expressID 0, leaves the
    whole state as it is (the selection is not cleared). *)
Theorem picks_agree_and_last_wins (st : App.state) (X Y : Z) :
  (forall hit rest,
      Object3D.expressID (object hit) = Some X -> X <> 0%Z ->
      App.components (sceneClick (hit :: rest) st)
      = listRowClick X (App.components st))
  /\ listRowClick Y (listRowClick X (App.components st))
     = listRowClick Y (App.components st)
  /\ sceneClick [] st = st
  /\ (forall hit rest,
         Object3D.expressID (object hit) = None
         \/ Object3D.expressID (object hit) = Some 0%Z ->
         sceneClick (hit :: rest) st = st).
Proof.
  repeat split.
  - intros hit rest Hhit Hnz. unfold sceneClick, handleSceneClick. rewrite Hhit.
    destruct (Z.eqb_spec X 0); [contradiction|reflexivity].
  - unfold listRowClick. rewrite map_map. apply map_ext. intro c.
    now destruct c.
  - intros hit rest [H|H]; unfold sceneClick, handleSceneClick; now rewrite H.
Qed.

(** X4.  The checkbox of the viewer's list sets the target's [visible] to
    the checkbox value and nothing else; setting it again changes nothing,
    and it overrides an earlier toggle of the same component. *)
Theorem list_checkbox_sets_visibility (cs : list Component) (X : Z) (checked : bool) :
  Forall2 (fun c c' =>
             (id c <> X -> c' = c)
             /\ (id c = X -> c' = with_visible checked c))
          cs (listRowCheck X checked cs)
  /\ listRowCheck X checked (listRowCheck X checked cs) = listRowCheck X checked cs
  /\ listRowCheck X checked (App.toggleVisible X cs) = listRowCheck X checked cs.
Proof.
  repeat split.
  - induction cs as [|c cs IH]; simpl; constructor; [|exact IH].
    destruct (Z.eqb_spec (id c) X); split; congruence.
  - unfold listRowCheck. rewrite map_map. apply map_ext. intro c.
    destruct (Z.eqb (id c) X) eqn:E; simpl; now rewrite E.
  - unfold listRowCheck, App.toggleVisible. rewrite map_map. apply map_ext. intro c.
    destruct (Z.eqb (id c) X) eqn:E; simpl; now rewrite E.
Qed.

End RegistryHandlers.

(** ** The component panel *)

Section Panel.

Import ComponentPanel.

Implicit Types (cs : list Component) (c : Component).

Lemma visible_split cs :
  List.length (filter visible cs)
  + List.length (filter (fun c => negb (visible c)) cs)
  = List.length cs.
Proof.
  induction cs as [|c cs IH]; simpl; [reflexivity|].
  destruct (visible c); simpl; lia.
Qed.

(** X5.  The panel's statistics add up: the total is the length of the
    list, visible plus hidden is the total, hidden counts exactly the
    components with [visible = false], and in every state a session reaches
    the highlighted count is 0 or 1. *)
Theorem stats_add_up (cs : list Component) (events : list Session.Event) :
  total (stats cs) = List.length cs
  /\ visibleCount (stats cs) + hidden (stats cs) = total (stats cs)
  /\ hidden (stats cs) = List.length (filter (fun c => negb (visible c)) cs)
  /\ highlightedCount (stats cs) = List.length (highlightedIds cs)
  /\ highlightedCount (stats (Session.registry (Session.run events))) <= 1.
Proof.
  assert (Hcount : forall l, highlightedCount (stats l)
                             = List.length (filter highlighted l)).
  { now destruct l. }
  pose proof (visible_split cs) as Hsplit.
  repeat split.
  - now destruct cs.
  - destruct cs as [|c cs]; [reflexivity|]. unfold stats.
    cbn [total visibleCount hidden]. lia.
  - destruct cs as [|c cs]; [reflexivity|]. unfold stats. cbn [hidden]. lia.
  - rewrite Hcount. apply highlightCount.
  - rewrite Hcount.
    apply (run_wellFormed events Session.initial wellFormed_nil).
Qed.

Lemma includes_empty s : Str.includes s "" = true.
Proof. now destruct s. Qed.

(** In a list with distinct ids an id names one component. *)
Lemma same_id_same_component cs c d :
  NoDup (ids cs) -> In c cs -> In d cs -> id c = id d -> c = d.
Proof.
  unfold ids. induction cs as [|e cs IH]; simpl; [easy|].
  intros Hnodup Hc Hd Hid. inversion Hnodup as [|? ? Hnotin Hrest]; subst.
  destruct Hc as [->|Hc], Hd as [->|Hd]; auto.
  - exfalso. apply Hnotin. rewrite Hid. now apply in_map.
  - exfalso. apply Hnotin. rewrite <- Hid. now apply in_map.
Qed.

Lemma with_visible_id b c : id (with_visible b c) = id c.
Proof. reflexivity. Qed.

(** One queued toggle of [handleToggleAll], on a registry that still holds
    the component as the panel listed it. *)
Lemma toggle_listed target cs c :
  NoDup (ids cs) -> In c cs ->
  (if Bool.eqb (visible c) target then cs else App.toggleVisible (id c) cs)
  = map (fun d => if Z.eqb (id d) (id c) then with_visible target d else d) cs.
Proof.
  intros Hnodup Hc.
  assert (Hsame : forall d, In d cs -> Z.eqb (id d) (id c) = true -> d = c).
  { intros d Hd E. apply Z.eqb_eq in E. symmetry.
    now apply (same_id_same_component cs c d). }
  destruct (Bool.eqb (visible c) target) eqn:Hv.
  - apply Bool.eqb_prop in Hv. symmetry. apply map_same. intros d Hd.
    destruct (Z.eqb (id d) (id c)) eqn:E; [|reflexivity].
    rewrite (Hsame d Hd E), <- Hv. apply with_visible_same.
  - unfold App.toggleVisible. apply map_ext_in. intros d Hd.
    destruct (Z.eqb (id d) (id c)) eqn:E; [|reflexivity].
    rewrite (Hsame d Hd E). f_equal.
    destruct (visible c), target; simpl in *; congruence.
Qed.

Lemma handleToggleAll_from target listed :
  forall cs,
    NoDup (ids cs) -> NoDup (ids listed) -> incl listed cs ->
    App.components
      (fold_left (fun acc component =>
                    if Bool.eqb (visible component) target then acc
                    else App.handleComponentToggle (id component) acc)
                 listed (App.mk cs true 0%float))
    = map (fun d => if existsb (Z.eqb (id d)) (ids listed)
                    then with_visible target d else d) cs.
Proof.
  induction listed as [|c listed IH]; intros cs Hcs Hlisted Hincl; simpl.
  - symmetry. now apply map_same.
  - inversion Hlisted as [|? ? Hnotin Hrest]; subst.
    assert (Hc : In c cs) by (apply Hincl; now left).
    pose proof (toggle_listed target cs c Hcs Hc) as Hstep.
    set (cs' := map (fun d => if Z.eqb (id d) (id c) then with_visible target d else d) cs)
      in *.
    assert (Hstate :
              (if Bool.eqb (visible c) target then App.mk cs true 0%float
               else App.handleComponentToggle (id c) (App.mk cs true 0%float))
              = App.mk cs' true 0%float).
    { rewrite <- Hstep. now destruct (Bool.eqb (visible c) target). }
    rewrite Hstate, IH.
    + subst cs'. rewrite map_map. apply map_ext. intro d.
      destruct (Z.eqb (id d) (id c)) eqn:E; simpl.
      * destruct (existsb (Z.eqb (id d)) (ids listed)); [now destruct d|reflexivity].
      * reflexivity.
    + subst cs'. unfold ids. rewrite map_map.
      erewrite map_ext; [exact Hcs|]. intro d.
      now destruct (Z.eqb (id d) (id c)).
    + exact Hrest.
    + intros d Hd. subst cs'. apply in_map_iff. exists d.
      assert (Hdc : In d cs) by (apply Hincl; now right).
      split; [|exact Hdc].
      destruct (Z.eqb_spec (id d) (id c)) as [E|E]; [|reflexivity].
      exfalso. apply Hnotin. rewrite <- E. unfold ids. now apply in_map.
Qed.

Lemma ids_filter_NoDup (keep : Component -> bool) cs :
  NoDup (ids cs) -> NoDup (ids (filter keep cs)).
Proof.
  unfold ids. induction cs as [|c cs IH]; simpl; intro H; [constructor|].
  inversion H as [|? ? Hnotin Hrest]; subst.
  destruct (keep c); simpl; [|auto]. constructor; [|auto].
  intro Hin. apply Hnotin. apply in_map_iff in Hin as (d & Hd & Hin).
  apply filter_In in Hin as (Hin & _). apply in_map_iff. eauto.
Qed.

(** The bulk action on the components a filter keeps, whatever the filter's
    test is. *)
Lemma handleToggleAll_filter (keep : Component -> bool) (target : bool)
      (st : App.state) :
  NoDup (ids (App.components st)) ->
  App.components (handleToggleAll target (filter keep (App.components st)) st)
  = map (fun c => if keep c then with_visible target c else c) (App.components st)
  /\ App.explodeAmount
       (handleToggleAll target (filter keep (App.components st)) st)
     = App.explodeAmount st.
Proof.
  intro Hnodup. set (listed := filter keep (App.components st)).
  assert (Hamount : forall l s,
             App.explodeAmount
               (fold_left (fun acc component =>
                             if Bool.eqb (visible component) target then acc
                             else App.handleComponentToggle (id component) acc) l s)
             = App.explodeAmount s
             /\ App.components
                  (fold_left (fun acc component =>
                             if Bool.eqb (visible component) target then acc
                             else App.handleComponentToggle (id component) acc) l s)
                = App.components
                    (fold_left (fun acc component =>
                             if Bool.eqb (visible component) target then acc
                             else App.handleComponentToggle (id component) acc) l
                               (App.mk (App.components s) true 0%float))).
  { induction l as [|c l IH]; intro s; simpl; [now split|].
    destruct (Bool.eqb (visible c) target).
    - apply IH.
    - destruct (IH (App.handleComponentToggle (id c) s)) as (Ha & Hc).
      split; [exact Ha|]. rewrite Hc. reflexivity. }
  split; [|unfold handleToggleAll; apply Hamount].
  unfold handleToggleAll.
  rewrite (proj2 (Hamount listed st)).
  rewrite handleToggleAll_from.
  - apply map_ext_in. intros d Hd.
    destruct (keep d) eqn:Hm.
    + assert (Hex : existsb (Z.eqb (id d)) (ids listed) = true).
      { apply existsb_exists. exists (id d). split; [|apply Z.eqb_refl].
        subst listed. unfold ids. apply in_map. now apply filter_In. }
      now rewrite Hex.
    + destruct (existsb (Z.eqb (id d)) (ids listed)) eqn:Hex; [|reflexivity].
      apply existsb_exists in Hex as (i & Hi & E). apply Z.eqb_eq in E. subst i.
      subst listed. unfold ids in Hi.
      apply in_map_iff in Hi as (e & He & Hin).
      apply filter_In in Hin as (Hin & Hme).
      rewrite (same_id_same_component _ e d Hnodup Hin Hd He) in Hme. congruence.
  - exact Hnodup.
  - subst listed. now apply ids_filter_NoDup.
  - subst listed. intros d Hd. now apply filter_In in Hd.
Qed.

Lemma filtered_is_filter lower f cs :
  filteredComponents lower f cs = filter (matches lower f) cs.
Proof. now destruct cs. Qed.

(** X7.  "Show All" and "Hide All": in a registry with distinct ids, after
    the bulk action on the components a filter keeps (whatever the filter's
    test, and so for the panel's list under any [toLowerCase]) every one of
    them has [visible] equal to the target and is otherwise as before, and
    the components the filter left out are untouched; the explode amount
    stays. *)
Theorem toggle_all_sets_listed
        (keep : Component -> bool) (target : bool) (st : App.state) :
  NoDup (ids (App.components st)) ->
  let listed := filter keep (App.components st) in
  let st' := handleToggleAll target listed st in
  App.components st'
  = map (fun c => if keep c then with_visible target c else c) (App.components st)
  /\ Forall2 (fun c c' =>
                (keep c = true -> c' = with_visible target c)
                /\ (keep c = false -> c' = c))
             (App.components st) (App.components st')
  /\ App.explodeAmount st' = App.explodeAmount st
  /\ (forall toLowerCase f,
         App.components
           (handleToggleAll target
              (filteredComponents toLowerCase f (App.components st)) st)
         = map (fun c => if matches toLowerCase f c
                         then with_visible target c else c)
               (App.components st)).
Proof.
  intros Hnodup listed st'.
  destruct (handleToggleAll_filter keep target st Hnodup) as (Hcomponents & Hamount).
  fold listed in Hcomponents, Hamount. fold st' in Hcomponents, Hamount.
  split; [exact Hcomponents|]. split; [|split; [exact Hamount|]].
  - rewrite Hcomponents. clear.
    induction (App.components st) as [|c cs IH]; simpl; [constructor|].
    constructor; [|exact IH].
    destruct (keep c); split; congruence.
  - intros toLowerCase f. rewrite filtered_is_filter.
    apply (handleToggleAll_filter (matches toLowerCase f) target st Hnodup).
Qed.

Lemma toggle_all_sets_listed_witness :
  map visible
      (App.components
         (handleToggleAll false
            (filteredComponents Str.toLowerCase (mkFilters "WALL" "all" false)
                                (App.components Fixtures.house))
            Fixtures.house))
  = [false; true; false].
Proof.
  assert (Hdistinct : NoDup (ids (App.components Fixtures.house))).
  { repeat constructor; simpl; intuition discriminate. }
  rewrite (proj2 (proj2 (proj2 (toggle_all_sets_listed
                                  (fun _ => true) false Fixtures.house Hdistinct)))
                 Str.toLowerCase (mkFilters "WALL" "all" false)).
  reflexivity.
Defined.

Lemma filter_both {A} (p q : A -> bool) (l : list A) :
  filter (fun a => p a && q a) l = filter q (filter p l).
Proof.
  induction l as [|a l IH]; simpl; [reflexivity|].
  destruct (p a); simpl; [|exact IH]. destruct (q a); now rewrite IH.
Qed.

Section PanelFilters.

Variable toLowerCase : string -> string.

(** X6.  The panel's filters compose, whatever [toLowerCase] does to the
    texts: with "show only visible" ticked the list holds exactly the visible
    components of the list shown without it; with a type selected it holds
    exactly the components of that type of the list shown with "all"; with a
    search term whose lower-case form is empty, type "all" and the box
    unticked it is the whole registry, in order; and after "Hide All" on the
    listed components of a registry with distinct ids, the list with "show only
    visible" ticked is empty. *)
Theorem panel_filters_compose
        (term selected : string) (show : bool) (st : App.state) :
  let cs := App.components st in
  filteredComponents toLowerCase (mkFilters term selected true) cs
  = filter visible
           (filteredComponents toLowerCase (mkFilters term selected false) cs)
  /\ (selected <> "all"%string ->
      filteredComponents toLowerCase (mkFilters term selected show) cs
      = filter (fun c => String.eqb (type c) selected)
               (filteredComponents toLowerCase (mkFilters term "all" show) cs))
  /\ (toLowerCase term = ""%string ->
      filteredComponents toLowerCase (mkFilters term "all" false) cs = cs)
  /\ (NoDup (ids cs) ->
      filteredComponents
        toLowerCase (mkFilters term selected true)
        (App.components
           (handleToggleAll
              false
              (filteredComponents toLowerCase (mkFilters term selected show) cs)
              st))
      = []).
Proof.
  intro cs. rewrite !filtered_is_filter. split; [|split; [|split]].
  - rewrite <- filter_both. apply filter_ext. intro c. unfold matches. simpl.
    now rewrite !andb_true_r.
  - intro Hsel. apply String.eqb_neq in Hsel.
    rewrite <- filter_both. apply filter_ext. intro c. unfold matches.
    cbn [searchTerm selectedType showOnlyVisible]. rewrite Hsel. simpl.
    destruct (Str.includes (toLowerCase (name c)) (toLowerCase term)
              || Str.includes (toLowerCase (type c)) (toLowerCase term))%bool;
      destruct (String.eqb (type c) selected), (negb show || visible c)%bool;
      reflexivity.
  - intro Hterm.
    assert (Hall : forall c, matches toLowerCase (mkFilters term "all" false) c = true).
    { intro c. unfold matches. cbn [searchTerm selectedType showOnlyVisible].
      now rewrite Hterm, includes_empty. }
    induction cs as [|c l IH]; simpl; [reflexivity|]. rewrite Hall. now f_equal.
  - subst cs. intro Hnodup.
    rewrite (proj1 (handleToggleAll_filter
                      (matches toLowerCase (mkFilters term selected show))
                      false st Hnodup)).
    clear Hnodup.
    induction (App.components st) as [|c l IH]; simpl; [reflexivity|].
    assert (Hc : matches toLowerCase (mkFilters term selected true)
                         (if matches toLowerCase (mkFilters term selected show) c
                          then with_visible false c else c) = false).
    { unfold matches. cbn [searchTerm selectedType showOnlyVisible].
      destruct ((Str.includes (toLowerCase (name c)) (toLowerCase term)
                 || Str.includes (toLowerCase (type c)) (toLowerCase term))
                && (String.eqb selected "all" || String.eqb (type c) selected))%bool
        eqn:Hst.
      - destruct show, (visible c) eqn:Hv; simpl; rewrite ?Hst; simpl;
          rewrite ?Hv, ?andb_false_r; reflexivity.
      - simpl. rewrite Hst. reflexivity. }
    now rewrite Hc.
Qed.

End PanelFilters.

End Panel.

Section TypeList.

Import ComponentPanel.

Local Open Scope string_scope.

Lemma distinct_from (xs : list string) :
  forall seen,
    NoDup seen ->
    let r := fold_left (fun seen v =>
                          if existsb (String.eqb v) seen then seen
                          else (seen ++ [v])%list) xs seen in
    NoDup r /\ forall v, In v r <-> In v seen \/ In v xs.
Proof.
  induction xs as [|x xs IH]; intros seen Hseen; simpl.
  - split; [exact Hseen|]. intro v. tauto.
  - destruct (existsb (String.eqb x) seen) eqn:E.
    + destruct (IH seen Hseen) as (Hnodup & Hin). split; [exact Hnodup|].
      intro v. rewrite Hin. split; [tauto|].
      intros [H|[<-|H]]; auto.
      apply existsb_exists in E as (y & Hy & Exy). apply String.eqb_eq in Exy.
      subst y. now left.
    + assert (Hnotin : ~ In x seen).
      { intro Hx. assert (existsb (String.eqb x) seen = true); [|congruence].
        apply existsb_exists. exists x. split; [exact Hx|apply String.eqb_refl]. }
      assert (Hnext : NoDup (seen ++ [x])%list).
      { apply NoDup_app; [exact Hseen|repeat constructor; simpl; tauto|].
        intros v Hv [<-|[]]. contradiction. }
      destruct (IH (seen ++ [x])%list Hnext) as (Hnodup & Hin).
      split; [exact Hnodup|]. intro v. rewrite Hin, in_app_iff. simpl. tauto.
Qed.

Lemma insertSorted_In v w sorted :
  In w (insertSorted v sorted) <-> w = v \/ In w sorted.
Proof.
  induction sorted as [|u sorted IH]; simpl; [intuition|].
  destruct (String.leb v u); simpl; [intuition|]. rewrite IH. intuition.
Qed.

Lemma insertSorted_NoDup v sorted :
  ~ In v sorted -> NoDup sorted -> NoDup (insertSorted v sorted).
Proof.
  induction sorted as [|u sorted IH]; simpl; intros Hv Hnodup.
  - repeat constructor. tauto.
  - inversion Hnodup as [|? ? Hu Hrest]; subst.
    destruct (String.leb v u); [constructor; simpl; tauto|].
    constructor; [|apply IH; tauto].
    rewrite insertSorted_In. intros [->|H]; tauto.
Qed.

Lemma insertSorted_Sorted v sorted :
  Sorted (fun a b => String.leb a b = true) sorted ->
  Sorted (fun a b => String.leb a b = true) (insertSorted v sorted).
Proof.
  induction 1 as [|u sorted Hsorted IH Hhd]; simpl; [repeat constructor|].
  destruct (String.leb v u) eqn:E.
  - constructor; [now constructor|]. now constructor.
  - constructor; [exact IH|].
    assert (Huv : String.leb u v = true).
    { destruct (String.leb_total u v) as [H|H]; [exact H|congruence]. }
    destruct sorted as [|w sorted]; simpl; [now constructor|].
    inversion Hhd; subst. destruct (String.leb v w); now constructor.
Qed.

(** X8.  The type filter's options: the distinct [type] values of the
    components, each once, in ascending order. *)
Theorem component_types_sorted_distinct (cs : list Component) :
  Sorted (fun a b => String.leb a b = true) (componentTypes cs)
  /\ NoDup (componentTypes cs)
  /\ forall t, In t (componentTypes cs) <-> exists c, In c cs /\ type c = t.
Proof.
  assert (Htypes : componentTypes cs = sort (distinct (map type cs))).
  { now destruct cs. }
  rewrite Htypes.
  destruct (distinct_from (map type cs) [] (NoDup_nil string)) as (Hnodup & Hin).
  fold (distinct (map type cs)) in Hnodup, Hin.
  assert (Hsort : forall l,
             Sorted (fun a b => String.leb a b = true) (sort l)
             /\ (forall t, In t (sort l) <-> In t l)
             /\ (NoDup l -> NoDup (sort l))).
  { induction l as [|v l (Hs & Hm & Hn)]; simpl.
    - split; [constructor|]. split; [tauto|auto].
    - split; [now apply insertSorted_Sorted|]. split.
      + intro t. rewrite insertSorted_In, Hm. intuition.
      + intro H. inversion H; subst. apply insertSorted_NoDup; [|auto].
        now rewrite Hm. }
  destruct (Hsort (distinct (map type cs))) as (Hs & Hm & Hn).
  split; [exact Hs|]. split; [auto|].
  intro t. rewrite Hm, Hin, in_map_iff. simpl. split.
  - intros [[]|(c & Hc & Hcs)]. eauto.
  - intros (c & Hcs & Hc). right. eauto.
Qed.

End TypeList.

(** ** The loader *)

Section Loader.

Import Decoder.

Local Open Scope Z_scope.
Local Open Scope string_scope.

Lemma processID_builds m acc v :
  Forall (Loaded.builtFor m) (extracted acc) ->
  Forall (Loaded.builtFor m) (extracted (processID m acc v)).
Proof.
  intro H. unfold processID.
  destruct (createSubset m v) as [subset|] eqn:Hs; [|exact H].
  destruct (getItemProperties m v) as [message| |props] eqn:Hp; try exact H.
  destruct (props_type props) as [t|] eqn:Ht; [|exact H].
  simpl. apply Forall_app. split; [exact H|]. constructor; [|constructor].
  exists subset, props, t. simpl. rewrite clone_same. repeat split; assumption.
Qed.

Lemma processIDs_build m uniqueIDs :
  forall acc,
    Forall (Loaded.builtFor m) (extracted acc) ->
    Forall (Loaded.builtFor m) (extracted (fold_left (processID m) uniqueIDs acc)).
Proof.
  induction uniqueIDs as [|v rest IH]; intros acc H; simpl; [exact H|].
  apply IH. now apply processID_builds.
Qed.

Lemma or_else_not_empty a b : b <> "" -> Decoder.or_else a b <> "".
Proof.
  intro Hb. destruct a as [[|ch s]|]; simpl; [exact Hb|discriminate|exact Hb].
Qed.

Lemma typeName_not_empty t :
  match IFC_TYPES_MAP t with
  | Some n => n
  | None => "Type_" ++ Str.ofZ t
  end <> "".
Proof.
  destruct (IFC_TYPES_MAP t) as [n|] eqn:E; [|discriminate].
  unfold IFC_TYPES_MAP in E.
  destruct t as [|[[[]|[]|]|[[]|[]|]|]|]; inversion E; discriminate.
Qed.

(** The place of an id in the attribute array: it stands there, and nowhere
    before. *)
Lemma firstn_length_app {A} (pre rest : list A) :
  firstn (List.length pre) (pre ++ rest)%list = pre.
Proof. induction pre as [|a pre IH]; simpl; [now destruct rest|now rewrite IH]. Qed.

Lemma nth_error_length_app {A} (pre rest : list A) (v : A) :
  nth_error (pre ++ v :: rest)%list (List.length pre) = Some v.
Proof. induction pre as [|a pre IH]; simpl; [reflexivity|exact IH]. Qed.

Lemma sorted_snoc (ps : list nat) (n : nat) :
  StronglySorted Nat.lt ps -> Forall (fun p => (p < n)%nat) ps ->
  StronglySorted Nat.lt (ps ++ [n])%list.
Proof.
  induction 1 as [|p ps Hs IH Hp]; intro Hb; simpl.
  - constructor; constructor.
  - inversion Hb as [|? ? Hpn Hrest]; subst. constructor; [now apply IH|].
    apply Forall_app. split; [exact Hp|]. constructor; [exact Hpn|constructor].
Qed.

Lemma collect_positions (a : list Z) :
  forall rest pre seen ps,
    a = (pre ++ rest)%list ->
    StronglySorted Nat.lt ps ->
    Forall (fun p => (p < List.length pre)%nat) ps ->
    Forall2 (fun v p => nth_error a p = Some v /\ ~ In v (firstn p a)) seen ps ->
    (forall x, In x seen <-> In x pre /\ 0 < x) ->
    exists ps',
      StronglySorted Nat.lt ps'
      /\ Forall2 (fun v p => nth_error a p = Some v /\ ~ In v (firstn p a))
                 (fold_left (fun uniqueIDs v =>
                               if Z.ltb 0 v then setAdd uniqueIDs v else uniqueIDs)
                            rest seen)
                 ps'.
Proof.
  induction rest as [|v rest IH]; intros pre seen ps Ha Hsorted Hbound Hat Hseen.
  - exists ps. now split.
  - assert (Ha' : a = ((pre ++ [v]) ++ rest)%list) by now rewrite <- app_assoc.
    assert (Hbound' : Forall (fun p => (p < List.length (pre ++ [v]))%nat) ps).
    { eapply Forall_impl; [|exact Hbound]. intros p Hp. cbv beta in Hp.
      rewrite length_app. simpl. lia. }
    simpl. destruct (Z.ltb 0 v) eqn:Hv.
    + apply Z.ltb_lt in Hv. unfold setAdd.
      destruct (existsb (Z.eqb v) seen) eqn:Hex.
      * apply (IH (pre ++ [v])%list seen ps Ha' Hsorted Hbound' Hat).
        intro x. rewrite Hseen, in_app_iff. simpl. split; [tauto|].
        intros ([Hx|[<-|[]]] & Hpos); [tauto|].
        apply existsb_exists in Hex as (y & Hy & E). apply Z.eqb_eq in E.
        subst y. now apply Hseen.
      * assert (Hnew : ~ In v pre).
        { intro Hin. assert (Hin' : In v seen) by now apply Hseen.
          assert (existsb (Z.eqb v) seen = true); [|congruence].
          apply existsb_exists. exists v. split; [exact Hin'|apply Z.eqb_refl]. }
        apply (IH (pre ++ [v])%list (seen ++ [v])%list
                  (ps ++ [List.length pre])%list Ha').
        -- now apply sorted_snoc.
        -- apply Forall_app. split; [exact Hbound'|].
           constructor; [|constructor]. rewrite length_app. simpl. lia.
        -- apply Forall2_app; [exact Hat|]. constructor; [|constructor].
           rewrite Ha. now rewrite nth_error_length_app, firstn_length_app.
        -- intro x. rewrite !in_app_iff, Hseen. simpl. split.
           ++ intros [H|[<-|[]]]; tauto.
           ++ intros ([H|[<-|[]]] & Hpos); tauto.
    + apply Z.ltb_ge in Hv.
      apply (IH (pre ++ [v])%list seen ps Ha' Hsorted Hbound' Hat).
      intro x. rewrite Hseen, in_app_iff. simpl. split; [tauto|].
      intros ([Hx|[<-|[]]] & Hpos); [tauto|lia].
Qed.

Lemma sorted_incl (ps qs : list nat) (p : nat) :
  Forall (Nat.lt p) ps -> incl qs ps -> Forall (Nat.lt p) qs.
Proof.
  intros Hp Hincl. apply Forall_forall. intros q Hq.
  exact (proj1 (Forall_forall _ _) Hp q (Hincl q Hq)).
Qed.

Lemma filter_positions {A} (R : A -> nat -> Prop) (keep : A -> bool) :
  forall l ps,
    StronglySorted Nat.lt ps -> Forall2 R l ps ->
    exists qs, StronglySorted Nat.lt qs /\ incl qs ps /\ Forall2 R (filter keep l) qs.
Proof.
  intros l ps Hsorted Hat. revert Hsorted.
  induction Hat as [|v p l ps Hv Hat IH]; intro Hsorted; simpl.
  - exists []. repeat split; [constructor|apply incl_refl|constructor].
  - inversion Hsorted as [|? ? Hs Hp]; subst.
    destruct (IH Hs) as (qs & Hqs & Hincl & Hf).
    destruct (keep v).
    + exists (p :: qs). split; [|split].
      * constructor; [exact Hqs|]. now apply (sorted_incl ps).
      * intros q [<-|Hq]; [now left|right; now apply Hincl].
      * now constructor.
    + exists qs. split; [exact Hqs|]. split; [|exact Hf].
      intros q Hq. right. now apply Hincl.
Qed.

(** The ids that survive the per-id loop stand in the attribute array at
    strictly increasing places, each at its first occurrence. *)
Lemma surviving_ids_first_seen (keep : Z -> bool) (idsArray : list Z) :
  exists positions : list nat,
    StronglySorted Nat.lt positions
    /\ Forall2 (fun v p => nth_error idsArray p = Some v
                           /\ ~ In v (firstn p idsArray))
               (filter keep (collectIDs idsArray)) positions.
Proof.
  assert (Hnone : forall x : Z, In x [] <-> In x [] /\ 0 < x) by (simpl; tauto).
  destruct (collect_positions idsArray idsArray [] [] [] eq_refl
              (SSorted_nil _) (Forall_nil _) (Forall2_nil _) Hnone)
    as (ps & Hsorted & Hat).
  destruct (filter_positions _ keep _ _ Hsorted Hat) as (qs & Hqs & _ & Hf).
  exists qs. now split.
Qed.

(** X9.  Whenever [loadIFCFile] resolves: the component list is not empty;
    the ids are positive and pairwise distinct, and they stand in the id
    attribute at strictly increasing places, each at its first occurrence
    there (first-seen order); they are the distinct positive ids of the
    attribute that survive the per-id loop; the two counters account for
    every distinct positive id exactly once, and [processedCount] is the
    number of components. *)
Theorem resolved_load_is_complete
        (decoded : Decoded) (result : Result) (progress : Progress) :
  loadIFCFile decoded = inr (result, progress) ->
  components result <> []
  /\ NoDup (ids (components result))
  /\ Forall (fun c => 0 < id c) (components result)
  /\ decoded = Loaded (model result)
  /\ (exists idsArray,
         expressIDAttr (model result) = Some idsArray
         /\ ids (components result)
            = filter (survives (model result)) (collectIDs idsArray)
         /\ (processedCount progress + failedCount progress
             = List.length (collectIDs idsArray))%nat
         /\ (exists positions : list nat,
                StronglySorted Nat.lt positions
                /\ Forall2 (fun v p => nth_error idsArray p = Some v
                                       /\ ~ In v (firstn p idsArray))
                           (ids (components result)) positions)
         /\ (forall v, In v (ids (components result))
                       <-> In v idsArray /\ 0 < v
                           /\ survives (model result) v = true))
  /\ processedCount progress = List.length (components result).
Proof.
  destruct decoded as [message|message|m]; simpl; try discriminate.
  unfold extract. destruct (expressIDAttr m) as [idsArray|] eqn:Hattr; [|discriminate].
  destruct (processIDs_from m (collectIDs idsArray) (mkProgress [] 0 0))
    as (Hids & Hfailed & Hprocessed & _).
  fold (processIDs m (collectIDs idsArray)) in Hids, Hfailed, Hprocessed.
  simpl in Hids, Hfailed, Hprocessed.
  destruct (collectIDs_distinct_positive idsArray) as (Hnodup & Hpos).
  pose proof (filter_split (survives m) (collectIDs idsArray)) as Hsplit.
  destruct (extracted (processIDs m (collectIDs idsArray))) as [|c cs] eqn:E;
    [discriminate|].
  intro H. injection H as <- <-. cbn [components model].
  split; [discriminate|].
  split; [rewrite Hids; now apply NoDup_filter|].
  split.
  { apply Forall_forall. intros d Hd.
    assert (Hin : In (id d) (ids (c :: cs))) by (unfold ids; now apply in_map).
    rewrite Hids in Hin. apply filter_In in Hin as (Hin & _).
    now apply Hpos in Hin. }
  split; [reflexivity|].
  split.
  { exists idsArray. rewrite Hattr.
    split; [reflexivity|]. split; [exact Hids|]. split; [lia|]. split.
    - rewrite Hids. apply surviving_ids_first_seen.
    - intro v. rewrite Hids, filter_In, Hpos. tauto. }
  rewrite Hprocessed, <- Hids. unfold ids. now rewrite length_map.
Qed.

Lemma resolved_load_is_complete_witness :
  match loadIFCFile (Loaded Sample.tower) with
  | inr (result, progress) =>
    components result <> []
    /\ processedCount progress = List.length (components result)
  | inl _ => False
  end.
Proof.
  destruct (loadIFCFile (Loaded Sample.tower)) as [message|[result progress]] eqn:E;
    [discriminate E|].
  destruct (resolved_load_is_complete (Loaded Sample.tower) result progress E)
    as (Hsome & _ & _ & _ & _ & Hcount).
  split; assumption.
Defined.

(** X10.  Every component of a resolved load carries the subset mesh built
    for its id, starts visible and not highlighted, has the mesh's position
    at load time as its initial position (so the mesh sits at its initial
    position), and has a non-empty name and a non-empty type: the name is the
    item's [Name.value] unless that is missing or empty, the type is never
    left blank. *)
Theorem loaded_components_are_well_built
        (decoded : Decoded) (result : Result) (progress : Progress) :
  loadIFCFile decoded = inr (result, progress) ->
  Forall (fun c =>
            visible c = true /\ highlighted c = false
            /\ createSubset (model result) (id c) = mesh c
            /\ (exists subset,
                   mesh c = Some subset
                   /\ initialPosition c = Some (Object3D.position subset))
            /\ name c <> "" /\ type c <> ""
            /\ (forall props given,
                   getItemProperties (model result) (id c) = PropsOf props ->
                   props_Name props = Some given -> given <> "" ->
                   name c = given)
            /\ (forall props,
                   getItemProperties (model result) (id c) = PropsOf props ->
                   props_Name props = None ->
                   name c = "ID " ++ Str.ofZ (id c)))
         (components result).
Proof.
  destruct decoded as [message|message|m]; simpl; try discriminate.
  unfold extract. destruct (expressIDAttr m) as [idsArray|] eqn:Hattr; [|discriminate].
  pose proof (processIDs_build m (collectIDs idsArray) (mkProgress [] 0 0)
                               (Forall_nil _)) as Hbuilt.
  fold (processIDs m (collectIDs idsArray)) in Hbuilt.
  destruct (extracted (processIDs m (collectIDs idsArray))) as [|c cs] eqn:E;
    [discriminate|].
  intro H. injection H as <- <-. simpl.
  eapply Forall_impl; [|exact Hbuilt].
  intros d (subset & props & t & Hs & Hp & Ht & Hmesh & Hinit & Hv & Hh & Hname & Htype).
  repeat split; try assumption.
  - congruence.
  - eauto.
  - rewrite Hname. now apply or_else_not_empty.
  - rewrite Htype. apply typeName_not_empty.
  - intros props' given Hp' Hgiven Hne. rewrite Hp in Hp'. injection Hp' as <-.
    rewrite Hname, Hgiven. destruct given; [contradiction|reflexivity].
  - intros props' Hp' Hnone. rewrite Hp in Hp'. injection Hp' as <-.
    rewrite Hname, Hnone. reflexivity.
Qed.

Lemma loaded_components_are_well_built_witness :
  Forall (fun c => name c <> "")
         (match loadIFCFile (Loaded Sample.tower) with
          | inr (result, _) => components result
          | inl _ => []
          end).
Proof.
  destruct (loadIFCFile (Loaded Sample.tower)) as [message|[result progress]] eqn:E;
    [constructor|].
  eapply Forall_impl;
    [|exact (loaded_components_are_well_built (Loaded Sample.tower) result progress E)].
  intros c H. apply H.
Defined.

Lemma includes_after p s sub : Str.includes s sub = true -> Str.includes (p ++ s) sub = true.
Proof.
  intro H. induction p as [|a p IH]; simpl; [exact H|].
  rewrite IH. apply orb_true_r.
Qed.

(** X11.  The rejections of [loadIFCFile]: an error whose message mentions
    WASM or WebAssembly is reported as the WebAssembly failure, also when it
    mentions the network; one that mentions network or fetch and not those is
    reported as the network failure; a geometry without the expressID
    attribute is reported as a load failure with that reason; and every
    rejection is one of four texts. *)
Theorem load_rejections_are_classified (message : string) :
  (Str.includes message "WASM" = true \/ Str.includes message "WebAssembly" = true ->
   loadIFCFile (LoadFailed message) = inl Loaded.wasmFailed
   /\ loadIFCFile (FileReadingFailed message) = inl Loaded.wasmFailed)
  /\ (Str.includes message "WASM" = false ->
      Str.includes message "WebAssembly" = false ->
      Str.includes message "network" = true \/ Str.includes message "fetch" = true ->
      loadIFCFile (LoadFailed message) = inl Loaded.networkFailed
      /\ loadIFCFile (FileReadingFailed message) = inl Loaded.networkFailed)
  /\ (forall m, expressIDAttr m = None ->
                loadIFCFile (Loaded m)
                = inl "Failed to load IFC file: No expressID attribute found in geometry")
  /\ (forall decoded text,
         loadIFCFile decoded = inl text ->
         text = Loaded.wasmFailed \/ text = Loaded.networkFailed \/ text = noValidComponents
         \/ exists reason, text = "Failed to load IFC file: " ++ reason).
Proof.
  assert (Hwasm : forall p,
             Str.includes message "WASM" = true
             \/ Str.includes message "WebAssembly" = true ->
             rejection (p ++ message) = Loaded.wasmFailed).
  { intros p [H|H]; unfold rejection;
      rewrite (includes_after p message _ H); [reflexivity|].
    now rewrite orb_true_r. }
  assert (Hforms : forall e,
             rejection e = Loaded.wasmFailed \/ rejection e = Loaded.networkFailed
             \/ exists reason, rejection e = "Failed to load IFC file: " ++ reason).
  { intro e. unfold rejection.
    destruct (Str.includes e "WASM" || Str.includes e "WebAssembly")%bool; [now left|].
    destruct (Str.includes e "network" || Str.includes e "fetch")%bool;
      [now right; left|].
    right; right. now exists e. }
  split; [|split; [|split]].
  - intro H. split; unfold loadIFCFile; now rewrite Hwasm.
  - intros Hw1 Hw2 Hnet.
    assert (Hprefix : forall p,
               Str.includes p "WASM" = false ->
               Str.includes p "WebAssembly" = false ->
               p = "File reading failed: " \/ p = "Failed to load IFC model: " ->
               rejection (p ++ message) = Loaded.networkFailed).
    { intros p _ _ Hp. unfold rejection.
      assert (Hno : (Str.includes (p ++ message) "WASM"
                     || Str.includes (p ++ message) "WebAssembly")%bool = false).
      { destruct Hp as [-> | ->]; simpl; rewrite Hw1, Hw2; reflexivity. }
      rewrite Hno.
      assert (Hyes : (Str.includes (p ++ message) "network"
                      || Str.includes (p ++ message) "fetch")%bool = true).
      { destruct Hnet as [H|H]; rewrite (includes_after p message _ H);
          [reflexivity|apply orb_true_r]. }
      now rewrite Hyes. }
    split; unfold loadIFCFile; rewrite Hprefix; auto.
  - intros m Hattr. simpl. unfold extract. now rewrite Hattr.
  - intros decoded text H.
    destruct decoded as [e|e|m]; unfold loadIFCFile in H.
    + injection H as <-. destruct (Hforms ("File reading failed: " ++ e)); tauto.
    + injection H as <-. destruct (Hforms ("Failed to load IFC model: " ++ e)); tauto.
    + unfold extract in H. destruct (expressIDAttr m).
      * destruct (extracted (processIDs m (collectIDs l))); [|discriminate].
        injection H as <-. tauto.
      * injection H as <-. destruct (Hforms noExpressID); tauto.
Qed.

End Loader.

(** ** Uploads run to their end *)

Section UploadOutcome.

Import Upload.

Local Open Scope Z_scope.
Local Open Scope string_scope.

(** X12.  An upload that passes validation ends with the loading flag off
    and installs all or nothing: when [loadIFCFile] resolves, the registry is
    exactly the resolved component list, the manager and model id are the
    model's and the error is cleared; when it rejects, the App state, the
    manager and the model id are those from before and the error shown is
    "Loading Error" with the rejection's message.  The explode amount is kept
    either way. *)
Theorem upload_installs_all_or_nothing
        (file : File) (st : App.state * Viewer) (decode : File -> Decoder.Decoded) :
  Str.endsWith (Str.toLowerCase (fileName file)) ".ifc" = true ->
  size file <= 100 * 1024 * 1024 ->
  let st' := run decode (handleFileUpload (Some file) st) in
  loading (snd st') = false
  /\ App.explodeAmount (fst st') = App.explodeAmount (fst st)
  /\ match Decoder.loadIFCFile (decode file) with
     | inr (result, _) =>
       App.components (fst st') = Decoder.components result
       /\ error (snd st') = None
       /\ ifcManager (snd st') = Some (Decoder.model result)
       /\ modelID (snd st') = Some (Decoder.modelID (Decoder.model result))
     | inl message =>
       fst st' = fst st
       /\ error (snd st') = Some (mkError "Loading Error" message)
       /\ ifcManager (snd st') = ifcManager (snd st)
       /\ modelID (snd st') = modelID (snd st)
     end.
Proof.
  intros Hext Hsize st'. subst st'. destruct st as [app viewer].
  unfold handleFileUpload. rewrite Hext. simpl negb. cbv iota.
  unfold maxSize. destruct (Z.ltb_spec (100 * 1024 * 1024) (size file)); [lia|].
  unfold run, loaded.
  destruct (Decoder.loadIFCFile (decode file)) as [message|[result progress]];
    simpl; repeat split.
Qed.

Lemma upload_installs_all_or_nothing_witness :
  let st' := run (fun _ => Decoder.Loaded Sample.tower)
                 (handleFileUpload (Some (mkFile "Tower.IFC" 2048)) Session.initial) in
  loading (snd st') = false
  /\ App.explodeAmount (fst st') = App.explodeAmount (fst Session.initial).
Proof.
  intro st'.
  destruct (upload_installs_all_or_nothing
              (mkFile "Tower.IFC" 2048) Session.initial
              (fun _ => Decoder.Loaded Sample.tower) eq_refl)
    as (Hloading & Hamount & _).
  - simpl. lia.
  - split; assumption.
Defined.

End UploadOutcome.

(** ** The measuring tool over a session *)

Section MeasuringTool.

Import History.

Lemma click_keeps_settled intersects st :
  settledTool st ->
  settledTool (fst (Measuring.click intersects st))
  /\ Measuring.alerts (fst (Measuring.click intersects st))
     = Measuring.alerts st
       ++ map MeasurementSystem.distance (snd (Measuring.click intersects st)).
Proof.
  destruct st as [active [points lines] alerts]. unfold settledTool. simpl.
  intros (Hlines & Hpoints). subst lines.
  unfold Measuring.click, MeasurementSystem.handleClick. simpl.
  destruct active; simpl.
  - destruct intersects as [|nearest behind]; simpl.
    + rewrite app_nil_r. auto.
    + destruct points as [|point1 [|point2 more]]; simpl.
      * rewrite app_nil_r. split; [split; [reflexivity|lia]|reflexivity].
      * auto.
      * simpl in Hpoints. lia.
  - rewrite app_nil_r. auto.
Qed.

Lemma toggle_keeps_settled st :
  settledTool st ->
  settledTool (Measuring.toggle st)
  /\ Measuring.alerts (Measuring.toggle st) = Measuring.alerts st.
Proof.
  destruct st as [active [points lines] alerts]. unfold settledTool. simpl.
  intros (Hlines & Hpoints). subst lines.
  destruct active; simpl; [auto|]. subst points. simpl. auto.
Qed.

(** X13.  After any sequence of toolbar toggles and canvas clicks, starting
    with the tool off: no measurement line is left in the scene, at most one
    point is captured while the tool is on and none while it is off, and the
    distances shown by [alert] are those of the measurements emitted, one
    each, in order. *)
Theorem measuring_tool_invariant (events : list MeasureEvent) :
  settledTool (fst (measure events))
  /\ Measuring.alerts (fst (measure events))
     = map MeasurementSystem.distance (snd (measure events)).
Proof.
  unfold measure.
  assert (Hgen : forall st,
             settledTool (fst st) ->
             Measuring.alerts (fst st) = map MeasurementSystem.distance (snd st) ->
             settledTool (fst (fold_left measureStep events st))
             /\ Measuring.alerts (fst (fold_left measureStep events st))
                = map MeasurementSystem.distance (snd (fold_left measureStep events st))).
  { induction events as [|e events IH]; intros st Hs Ha; simpl; [auto|].
    apply IH; destruct e as [|intersects]; simpl.
    - apply toggle_keeps_settled, Hs.
    - destruct (click_keeps_settled intersects (fst st) Hs) as (H & _).
      now destruct (Measuring.click intersects (fst st)).
    - rewrite (proj2 (toggle_keeps_settled (fst st) Hs)). exact Ha.
    - destruct (click_keeps_settled intersects (fst st) Hs) as (_ & H).
      destruct (Measuring.click intersects (fst st)) as [st' emitted]. simpl in *.
      now rewrite H, Ha, map_app. }
  apply Hgen; simpl; [split; reflexivity|reflexivity].
Qed.

(** X14.  The edges of the click handler: with the tool off, or when the
    ray hits nothing, a click changes nothing and emits nothing; the first
    pick of an idle active tool stores exactly the hit point and emits
    nothing; and switching the tool off with a point captured drops the
    point, shows no distance and leaves the tool idle. *)
Theorem measuring_edges (st : Measuring.state) :
  (Measuring.isMeasuring st = false ->
   forall intersects, Measuring.click intersects st = (st, []))
  /\ (Measuring.click [] st = (st, []))
  /\ (Measuring.isMeasuring st = true ->
      MeasurementSystem.points (Measuring.system st) = [] ->
      forall nearest behind,
        snd (Measuring.click (nearest :: behind) st) = []
        /\ MeasurementSystem.points
             (Measuring.system (fst (Measuring.click (nearest :: behind) st)))
           = [point nearest]
        /\ Measuring.isMeasuring (fst (Measuring.click (nearest :: behind) st)) = true)
  /\ (Measuring.isMeasuring st = true ->
      MeasurementSystem.points (Measuring.system (Measuring.toggle st)) = []
      /\ MeasurementSystem.stage (Measuring.system (Measuring.toggle st))
         = MeasurementSystem.Idle
      /\ Measuring.isMeasuring (Measuring.toggle st) = false
      /\ Measuring.alerts (Measuring.toggle st) = Measuring.alerts st).
Proof.
  destruct st as [active [points lines] alerts]. simpl.
  split; [|split; [|split]].
  - intros -> intersects. reflexivity.
  - unfold Measuring.click, MeasurementSystem.handleClick. simpl.
    destruct active; reflexivity.
  - intros -> -> nearest behind.
    unfold Measuring.click, MeasurementSystem.handleClick. simpl.
    rewrite clone_same. auto.
  - intros ->. simpl. auto.
Qed.

End MeasuringTool.

(** ** Clipping over a history of renders *)

Section ClipHistory.

Import ClippingPlanes.

Lemma sameProps_eq p q : sameProps p q = true -> p = q.
Proof.
  destruct p as [m1 s1 a1], q as [m2 s2 a2]. unfold sameProps. simpl. intro H.
  apply andb_prop in H as (H & Ha). apply andb_prop in H as (Hm & Hs).
  apply Bool.eqb_prop in Hm. apply String.eqb_eq in Ha.
  apply FloatAxioms.Leibniz.eqb_spec in Hs. congruence.
Qed.

Lemma traverse_after planes planes' cs os helper helper' :
  traverse planes
           (mkScene (components (traverse planes' (mkScene cs os helper')))
                    (others (traverse planes' (mkScene cs os helper')))
                    helper)
  = traverse planes (mkScene cs os helper).
Proof.
  unfold traverse. simpl. f_equal; rewrite map_map; apply map_ext; intro.
  - apply onMesh_visit_visit.
  - apply visit_visit.
Qed.

Lemma effect_after planes next cs os helper :
  effect next (mkScene (components (traverse planes (mkScene cs os helper)))
                       (others (traverse planes (mkScene cs os helper)))
                       None)
  = effect next (mkScene cs os None).
Proof.
  unfold effect. destruct (isSplitMode next); simpl negb; cbv iota.
  - cbn [components others]. apply traverse_after.
  - apply traverse_after.
Qed.

(** A render with new props, after the effect of the old ones, leaves what
    the effect of the new ones alone would. *)
Lemma update_is_effect previous next scene :
  planeHelper scene = None ->
  update previous next (effect previous scene) = effect next scene.
Proof.
  destruct scene as [cs os helper]. simpl. intros ->. unfold update.
  destruct (sameProps previous next) eqn:Hsame.
  - now rewrite (sameProps_eq previous next Hsame).
  - destruct (isSplitMode previous) eqn:Hprev.
    + rewrite (effect_on previous _ Hprev). unfold cleanup.
      cbn [components others].
      rewrite traverse_after. apply effect_after.
    + unfold effect at 2. rewrite Hprev. simpl negb. cbv iota.
      assert (Hflat : traverse [] (mkScene cs os None)
                      = mkScene (components (traverse [] (mkScene cs os None)))
                                (others (traverse [] (mkScene cs os None))) None).
      { reflexivity. }
      rewrite Hflat. apply effect_after.
Qed.

(** X15.  However split mode, axis and position were changed, the scene
    depends on the last props only: it is what the effect of the last props
    alone gives on the original scene.  So there is a plane helper exactly
    when split mode is on, and every clippable material of every component
    carries the one plane of the current axis and position when it is on and
    no plane when it is off. *)
Theorem clip_history_is_last_props
        (first : Props) (changes : list Props) (scene : Scene) :
  planeHelper scene = None ->
  let current := History.lastProps first changes in
  let shown := History.clipFrom first changes scene in
  shown = effect current scene
  /\ (planeHelper shown = None <-> isSplitMode current = false)
  /\ (forall c mat, In c (components shown) -> In mat (clippable c) ->
                    Material.clippingPlanes mat
                    = Some (if isSplitMode current then [planeOf current] else [])).
Proof.
  intros Hscene current shown.
  assert (Hshown : shown = effect current scene).
  { subst shown current. unfold History.clipFrom, History.lastProps.
    revert first. induction changes as [|next later IH]; intro first; [reflexivity|].
    cbn [History.clip]. rewrite (update_is_effect first next scene Hscene).
    rewrite IH. f_equal. destruct later as [|p later]; [reflexivity|].
    change (last (next :: p :: later) first) with (last (p :: later) first).
    clear. revert p. induction later as [|q later IHl]; intro p; [reflexivity|].
    exact (IHl q). }
  split; [exact Hshown|]. rewrite Hshown. unfold effect.
  destruct (isSplitMode current); simpl negb; cbv iota.
  - split; [split; discriminate|]. intros c mat. apply traversed_carry.
  - split.
    + split; [reflexivity|]. intros _. simpl. now rewrite Hscene.
    + intros c mat. apply traversed_carry.
Qed.

Lemma clip_history_is_last_props_witness :
  History.clipFrom initialProps
                   [Sample.splitAtMiddle; mkProps true 20%float "z";
                    mkProps false 20%float "z"; mkProps true 70%float "y"]
                   Sample.canvas
  = effect (mkProps true 70%float "y") Sample.canvas.
Proof.
  exact (proj1 (clip_history_is_last_props
                  initialProps
                  [Sample.splitAtMiddle; mkProps true 20%float "z";
                   mkProps false 20%float "z"; mkProps true 70%float "y"]
                  Sample.canvas eq_refl)).
Defined.

(** X16.  The clipping traversal writes [clippingPlanes] and [needsUpdate]
    of materials and nothing else: a component keeps its id, name, type,
    visibility, highlight and initial position, its mesh keeps position,
    geometry, expressID and the wireframe flag of every material, and a scene
    object that is not a mesh or has no material is returned as it is. *)
Theorem clip_effect_frame (p : Props) (scene : Scene) :
  Forall2 (fun c c' =>
             id c' = id c /\ name c' = name c /\ type c' = type c
             /\ visible c' = visible c /\ highlighted c' = highlighted c
             /\ initialPosition c' = initialPosition c
             /\ option_map Object3D.position (mesh c')
                = option_map Object3D.position (mesh c)
             /\ option_map Object3D.geometry (mesh c')
                = option_map Object3D.geometry (mesh c)
             /\ option_map Object3D.expressID (mesh c')
                = option_map Object3D.expressID (mesh c)
             /\ map Material.wireframe (Wireframe.materials c')
                = map Material.wireframe (Wireframe.materials c))
          (components scene) (components (effect p scene))
  /\ Forall2 (fun o o' =>
                Object3D.isMesh o = false \/ Object3D.material o = None -> o' = o)
             (others scene) (others (effect p scene)).
Proof.
  assert (Hc : forall planes c,
             let c' := onMesh (visit planes) c in
             id c' = id c /\ name c' = name c /\ type c' = type c
             /\ visible c' = visible c /\ highlighted c' = highlighted c
             /\ initialPosition c' = initialPosition c
             /\ option_map Object3D.position (mesh c')
                = option_map Object3D.position (mesh c)
             /\ option_map Object3D.geometry (mesh c')
                = option_map Object3D.geometry (mesh c)
             /\ option_map Object3D.expressID (mesh c')
                = option_map Object3D.expressID (mesh c)
             /\ map Material.wireframe (Wireframe.materials c')
                = map Material.wireframe (Wireframe.materials c)).
  { intros planes c. unfold onMesh, Wireframe.materials, visit. simpl.
    destruct (mesh c) as [[isMesh pos geo [slot|] eid]|]; simpl;
      try (repeat split; fail);
      destruct isMesh; simpl; repeat split.
    destruct slot as [mat|mats]; simpl; [reflexivity|].
    rewrite map_map. reflexivity. }
  assert (Ho : forall planes o,
             Object3D.isMesh o = false \/ Object3D.material o = None ->
             visit planes o = o).
  { intros planes o [H|H]; unfold visit; rewrite H; [reflexivity|].
    now destruct (Object3D.isMesh o). }
  assert (Hall : forall planes helper,
             Forall2 (fun c c' => c' = onMesh (visit planes) c)
                     (components scene)
                     (components (traverse planes
                                    (mkScene (components scene) (others scene) helper)))
             /\ Forall2 (fun o o' => o' = visit planes o)
                        (others scene)
                        (others (traverse planes
                                   (mkScene (components scene) (others scene) helper)))).
  { intros planes helper. simpl. split.
    - induction (components scene); simpl; constructor; auto.
    - induction (others scene); simpl; constructor; auto. }
  assert (Heffect : exists planes helper,
             effect p scene
             = traverse planes (mkScene (components scene) (others scene) helper)).
  { unfold effect. destruct (isSplitMode p); simpl negb; cbv iota.
    - eexists. eexists. reflexivity.
    - exists [], (planeHelper scene). now destruct scene. }
  destruct Heffect as (planes & helper & ->).
  destruct (Hall planes helper) as (H1 & H2). split.
  - eapply Forall2_impl; [|exact H1]. intros c c' ->. apply Hc.
  - eapply Forall2_impl; [|exact H2]. intros o o' -> H. now apply Ho.
Qed.

End ClipHistory.

(** ** The wireframe effect *)

Section WireframeEffect.

Import ClippingPlanes.

Lemma wireframe_materials enabled c :
  Wireframe.materials (onMesh (Wireframe.apply enabled) c)
  = map (Wireframe.set_wireframe enabled) (Wireframe.materials c).
Proof.
  unfold Wireframe.materials, onMesh, Wireframe.apply. simpl.
  destruct (mesh c) as [[isMesh pos geo [slot|] eid]|]; simpl; try reflexivity.
  apply materialsOf_forEach.
Qed.

(** X17.  The wireframe effect sets the flag on every material of every
    component's mesh and keeps the clipping planes; a later setting replaces
    an earlier one; and it commutes with the clipping traversal, so the order
    in which the two effects run does not matter. *)
Theorem wireframe_effect_composes
        (enabled earlier : bool) (planes : list Plane.t) (cs : list Component) :
  Forall (fun c =>
            Forall (fun mat => Material.wireframe mat = enabled)
                   (Wireframe.materials c))
         (Wireframe.effect enabled cs)
  /\ map (fun c => map Material.clippingPlanes (Wireframe.materials c))
         (Wireframe.effect enabled cs)
     = map (fun c => map Material.clippingPlanes (Wireframe.materials c)) cs
  /\ Wireframe.effect enabled (Wireframe.effect earlier cs)
     = Wireframe.effect enabled cs
  /\ Wireframe.effect enabled (map (onMesh (visit planes)) cs)
     = map (onMesh (visit planes)) (Wireframe.effect enabled cs).
Proof.
  unfold Wireframe.effect. repeat split.
  - apply Forall_forall. intros c' Hc. apply in_map_iff in Hc as (c & <- & _).
    rewrite wireframe_materials. apply Forall_forall. intros mat Hmat.
    apply in_map_iff in Hmat as (m0 & <- & _). reflexivity.
  - rewrite map_map. apply map_ext. intro c.
    rewrite wireframe_materials, map_map. reflexivity.
  - rewrite map_map. apply map_ext. intro c. unfold onMesh, Wireframe.apply. simpl.
    destruct (mesh c) as [[isMesh pos geo [slot|] eid]|]; simpl; try reflexivity.
    unfold Object3D.set_material. simpl. do 3 f_equal.
    destruct slot as [mat|mats]; simpl; [reflexivity|].
    rewrite map_map. reflexivity.
  - rewrite !map_map. apply map_ext. intro c.
    unfold onMesh, Wireframe.apply, visit. simpl.
    destruct (mesh c) as [[isMesh pos geo [slot|] eid]|]; simpl;
      try reflexivity; destruct isMesh; simpl; try reflexivity.
    unfold Object3D.set_material. simpl. do 3 f_equal.
    destruct slot as [mat|mats]; simpl; [reflexivity|].
    rewrite !map_map. reflexivity.
Qed.

End WireframeEffect.

(** ** More on the explode effect *)

Section ExplodeMore.

Local Open Scope float_scope.

Variable matrixWorld : Object3D.t -> Vector3.t -> Vector3.t.

Lemma explodeEach_at_rest amount modelCenter modelSize cs :
  JS.gt amount 0 = false ->
  forall centroids,
    Explode.explodeEach amount modelCenter modelSize cs centroids
    = (map Exploded.atRest cs, false).
Proof.
  intro Hgt. induction cs as [|c cs IH]; intro centroids; simpl; [reflexivity|].
  unfold Exploded.atRest at 1.
  destruct (Explode.explodable c) as [[m p0]|]; [rewrite Hgt|]; now rewrite IH.
Qed.

(** X18.  An amount that is not above 0 (0, -0, a negative number, NaN)
    makes the explode effect do what amount 0 does: no centroid is read, the
    loop ends normally, and the result is the same component list. *)
Theorem explode_nonpositive_is_zero
        (amount : JS.number) (cs : list Component) (centroids : list Vector3.t) :
  JS.gt amount 0 = false ->
  Explode.effect matrixWorld amount cs centroids
  = Explode.effect matrixWorld 0 cs centroids
  /\ snd (Explode.effect matrixWorld amount cs centroids) = false.
Proof.
  intro Hgt. unfold Explode.effect.
  destruct cs as [|c cs]; [auto|]. destruct centroids as [|centroid centroids]; [auto|].
  rewrite (explodeEach_at_rest amount _ _ _ Hgt).
  rewrite (explodeEach_at_rest 0 _ _ _ eq_refl). auto.
Qed.

Lemma explodeEach_length amount modelCenter modelSize cs centroids :
  List.length (fst (Explode.explodeEach amount modelCenter modelSize cs centroids))
  = List.length cs.
Proof.
  symmetry. eapply Forall2_length. apply explodeEach_same.
Qed.

Lemma explodeEach_enough amount modelCenter modelSize cs :
  forall centroids,
    (List.length cs <= List.length centroids)%nat ->
    snd (Explode.explodeEach amount modelCenter modelSize cs centroids) = false.
Proof.
  induction cs as [|c cs IH]; intros centroids Hlen; simpl; [reflexivity|].
  destruct centroids as [|centroid centroids]; simpl in Hlen; [lia|].
  specialize (IH centroids ltac:(lia)). simpl.
  destruct (Explode.explodable c) as [[m p0]|].
  - destruct (JS.gt amount 0);
      destruct (Explode.explodeEach amount modelCenter modelSize cs centroids);
      exact IH.
  - destruct (Explode.explodeEach amount modelCenter modelSize cs centroids).
    exact IH.
Qed.

Lemma explodeEach_short amount modelCenter modelSize cs :
  JS.gt amount 0 = true ->
  Forall (fun c => Explode.explodable c <> None) cs ->
  forall centroids,
    (List.length centroids < List.length cs)%nat ->
    snd (Explode.explodeEach amount modelCenter modelSize cs centroids) = true.
Proof.
  intros Hgt Hall. induction Hall as [|c cs Hc _ IH]; intros centroids Hlen;
    simpl in *; [lia|].
  destruct (Explode.explodable c) as [[m p0]|]; [|contradiction]. rewrite Hgt.
  destruct centroids as [|centroid centroids]; [reflexivity|]. simpl in *.
  specialize (IH centroids ltac:(lia)).
  destruct (Explode.explodeEach amount modelCenter modelSize cs centroids).
  exact IH.
Qed.

Lemma cache_explodable cs :
  Forall (fun c => Explode.explodable c <> None) cs ->
  Forall (fun c => Explode.explodable c <> None) (map Explode.cacheBoundingBox cs).
Proof.
  induction 1 as [|c cs Hc _ IH]; simpl; constructor; [|exact IH].
  destruct (Explode.explodable c) as [[m p0]|] eqn:E; [|contradiction].
  destruct (sameComponent_cache c) as (_ & _ & H).
  destruct (H m p0 E) as (m' & ->). discriminate.
Qed.

Lemma effect_enough amount cs centroids :
  (List.length cs <= List.length centroids)%nat ->
  snd (Explode.effect matrixWorld amount cs centroids) = false.
Proof.
  intro Hlen. unfold Explode.effect.
  destruct cs as [|c cs]; [reflexivity|].
  destruct centroids as [|centroid centroids]; [reflexivity|].
  apply explodeEach_enough. now rewrite length_map.
Qed.

(** X19.  The explode effect and the length of the centroid cache: the
    effect always returns as many components as it got; with at least one
    centroid per component it never throws; with an amount above 0, a
    non-empty cache shorter than a list of components that all have mesh,
    geometry and initial position, it throws on the first component without a
    centroid. *)
Theorem explode_throws_only_without_centroid
        (amount : JS.number) (cs : list Component) (centroids : list Vector3.t) :
  List.length (fst (Explode.effect matrixWorld amount cs centroids)) = List.length cs
  /\ ((List.length cs <= List.length centroids)%nat ->
      snd (Explode.effect matrixWorld amount cs centroids) = false)
  /\ (JS.gt amount 0 = true ->
      centroids <> [] ->
      (List.length centroids < List.length cs)%nat ->
      Forall (fun c => Explode.explodable c <> None) cs ->
      snd (Explode.effect matrixWorld amount cs centroids) = true).
Proof.
  split; [|split; [apply effect_enough|]].
  - unfold Explode.effect. destruct cs as [|c cs]; [reflexivity|].
    destruct centroids as [|centroid centroids]; [reflexivity|].
    rewrite explodeEach_length. now rewrite length_map.
  - intros Hgt Hsome Hlen Hall. unfold Explode.effect.
    destruct cs as [|c cs]; [simpl in Hlen; lia|].
    destruct centroids as [|centroid centroids]; [contradiction|].
    apply explodeEach_short; auto.
    + now apply cache_explodable.
    + now rewrite length_map.
Qed.

(** X20.  The centroid cache: with an empty cache and components at hand the
    effect stores one centroid per component; a filled cache is kept as it
    is, also when the components are others than those it was computed from;
    without components the cache is emptied.  Running the effect on what it
    produced changes nothing, and with the cache it produced the explode
    effect never throws, whatever the amount. *)
Theorem centroid_cache_is_filled_once
        (cs : list Component) (cached : list Vector3.t) (amount : JS.number) :
  (cs <> [] ->
   List.length (snd (Explode.centroidEffect matrixWorld cs [])) = List.length cs
   /\ Explode.centroidEffect matrixWorld
        (fst (Explode.centroidEffect matrixWorld cs []))
        (snd (Explode.centroidEffect matrixWorld cs []))
      = Explode.centroidEffect matrixWorld cs []
   /\ snd (Explode.effect matrixWorld amount
             (fst (Explode.centroidEffect matrixWorld cs []))
             (snd (Explode.centroidEffect matrixWorld cs [])))
      = false)
  /\ (cs <> [] -> cached <> [] ->
      Explode.centroidEffect matrixWorld cs cached = (cs, cached))
  /\ Explode.centroidEffect matrixWorld [] cached = ([], []).
Proof.
  split; [|split].
  - intro Hcs. destruct cs as [|c cs]; [contradiction|].
    unfold Explode.centroidEffect. cbn [fst snd].
    split; [now rewrite !length_map|]. split.
    + reflexivity.
    + apply effect_enough. now rewrite !length_map.
  - intros Hcs Hcached. destruct cs; [contradiction|]. destruct cached; [contradiction|].
    reflexivity.
  - reflexivity.
Qed.

End ExplodeMore.

Lemma explode_nonpositive_is_zero_witness :
  Explode.effect Sample.translation nan (App.components Fixtures.house) Fixtures.centres
  = Explode.effect Sample.translation 0%float (App.components Fixtures.house)
                   Fixtures.centres
  /\ Explode.effect Sample.translation (-3)%float (App.components Fixtures.house)
                    Fixtures.centres
     = Explode.effect Sample.translation 0%float (App.components Fixtures.house)
                      Fixtures.centres.
Proof.
  split.
  - exact (proj1 (explode_nonpositive_is_zero
                    Sample.translation nan (App.components Fixtures.house)
                    Fixtures.centres eq_refl)).
  - exact (proj1 (explode_nonpositive_is_zero
                    Sample.translation (-3)%float (App.components Fixtures.house)
                    Fixtures.centres eq_refl)).
Defined.

Section ExplodeFrame.

Variable matrixWorld : Object3D.t -> Vector3.t -> Vector3.t.

Lemma untouched_refl c : Exploded.untouched c c.
Proof. unfold Exploded.untouched. repeat split. Qed.

Lemma untouched_trans c1 c2 c3 :
  Exploded.untouched c1 c2 -> Exploded.untouched c2 c3 -> Exploded.untouched c1 c3.
Proof.
  unfold Exploded.untouched. intros H1 H2.
  decompose [and] H1. decompose [and] H2. repeat split; congruence.
Qed.

Lemma untouched_moveTo p c : Exploded.untouched c (Explode.moveTo p c).
Proof.
  unfold Exploded.untouched, Explode.moveTo, onMesh. simpl.
  destruct (mesh c); simpl; repeat split.
Qed.

Lemma untouched_cache c : Exploded.untouched c (Explode.cacheBoundingBox c).
Proof.
  unfold Exploded.untouched, Explode.cacheBoundingBox, onMesh. simpl.
  destruct (mesh c) as [[isMesh pos [g|] mat eid]|]; simpl; repeat split.
  now destruct g as [vs [b|]].
Qed.

Lemma Forall2_untouched_refl cs : Forall2 Exploded.untouched cs cs.
Proof. induction cs; constructor; auto using untouched_refl. Qed.

Lemma Forall2_untouched_trans cs1 cs2 cs3 :
  Forall2 Exploded.untouched cs1 cs2 -> Forall2 Exploded.untouched cs2 cs3 ->
  Forall2 Exploded.untouched cs1 cs3.
Proof.
  intro H. revert cs3. induction H; intros cs3 H'; inversion H'; subst;
    constructor; eauto using untouched_trans.
Qed.

Lemma explodeEach_untouched amount modelCenter modelSize cs :
  forall centroids,
    Forall2 Exploded.untouched cs
            (fst (Explode.explodeEach amount modelCenter modelSize cs centroids)).
Proof.
  induction cs as [|c cs IH]; intro centroids; simpl; [constructor|].
  destruct (Explode.explodable c) as [[m p0]|].
  - destruct (JS.gt amount 0%float).
    + destruct centroids as [|centroid centroids]; simpl.
      * constructor; [apply untouched_moveTo|apply Forall2_untouched_refl].
      * specialize (IH centroids).
        destruct (Explode.explodeEach amount modelCenter modelSize cs centroids).
        constructor; [apply untouched_moveTo|exact IH].
    + specialize (IH (tl centroids)).
      destruct (Explode.explodeEach amount modelCenter modelSize cs (tl centroids)).
      constructor; [apply untouched_moveTo|exact IH].
  - specialize (IH (tl centroids)).
    destruct (Explode.explodeEach amount modelCenter modelSize cs (tl centroids)).
    constructor; [apply untouched_refl|exact IH].
Qed.

(** X21.  Whatever the amount, the centroids and the history of earlier
    runs, the explode effect writes mesh positions (and the geometry's cached
    bounding box) only: ids, names, types, visibility, highlight, initial
    positions, materials, expressIDs and vertices are as before, component by
    component, in the same order. *)
Theorem explode_effect_frame
        (history : list JS.number) (amount : JS.number)
        (cs : list Component) (centroids : list Vector3.t) :
  Forall2 Exploded.untouched cs
          (fst (Explode.effect matrixWorld amount
                  (Explode.replay matrixWorld history centroids cs) centroids))
  /\ highlightedIds
       (fst (Explode.effect matrixWorld amount
               (Explode.replay matrixWorld history centroids cs) centroids))
     = highlightedIds cs.
Proof.
  assert (Hone : forall a l,
             Forall2 Exploded.untouched l
                     (fst (Explode.effect matrixWorld a l centroids))).
  { intros a l. unfold Explode.effect.
    destruct l as [|c l]; [constructor|].
    destruct centroids as [|centroid cents]; [apply Forall2_untouched_refl|].
    eapply Forall2_untouched_trans; [|apply explodeEach_untouched].
    clear. induction (c :: l); simpl; constructor; auto using untouched_cache. }
  assert (Hreplay : forall l,
             Forall2 Exploded.untouched l
                     (Explode.replay matrixWorld history centroids l)).
  { unfold Explode.replay. induction history as [|a history IH]; intro l; simpl.
    - apply Forall2_untouched_refl.
    - eapply Forall2_untouched_trans; [apply Hone|apply IH]. }
  assert (Hall : Forall2 Exploded.untouched cs
                         (fst (Explode.effect matrixWorld amount
                                 (Explode.replay matrixWorld history centroids cs)
                                 centroids))).
  { eapply Forall2_untouched_trans; [apply Hreplay|apply Hone]. }
  split; [exact Hall|].
  unfold highlightedIds. induction Hall as [|c c' l l' H _ IH]; simpl; [reflexivity|].
  destruct H as (Hid & _ & _ & _ & Hh & _). rewrite Hh.
  destruct (highlighted c); simpl; now rewrite IH, ?Hid.
Qed.

End ExplodeFrame.

(** ** Highlight materials *)

Section Highlighting.

Import IFCModel.

Lemma replay_highlighted flags :
  Forall (fun f => fst f = true) flags ->
  forall r kept current,
    originalMaterial r = Some kept ->
    Object3D.material (object3D r) = Some current ->
    originalMaterial (replay flags r) = Some kept
    /\ Object3D.material (object3D (replay flags r))
       = Some (match flags with [] => current | _ => highlightMaterial end)
    /\ Object3D.set_material None (object3D (replay flags r))
       = Object3D.set_material None (object3D r).
Proof.
  unfold replay. induction 1 as [|[h v] flags Hh _ IH]; intros r kept current Hk Hc;
    simpl; [auto|].
  simpl in Hh. subst h.
  destruct (IH (sync true v r) kept highlightMaterial) as (H1 & H2 & H3).
  - unfold sync. rewrite Hc, Hk. reflexivity.
  - unfold sync. rewrite Hc. reflexivity.
  - split; [exact H1|]. split.
    + rewrite H2. now destruct flags.
    + rewrite H3. unfold sync. rewrite Hc. reflexivity.
Qed.

(** X22.  Highlighting swaps in a fresh material and remembers the mesh's
    own once: however many renders follow while the component stays
    highlighted, the render that finds it not highlighted puts the mesh's own
    material back (flagged for update when it is a single material), forgets
    the stored one and leaves every other field of the mesh as it was; and the
    mesh's [visible] is that of the last render. *)
Theorem highlight_round_trip
        (r : Rendered) (own : MaterialSlot) (renders : list (bool * bool))
        (v0 v : bool) :
  Object3D.material (object3D r) = Some own ->
  originalMaterial r = None ->
  Forall (fun f => fst f = true) renders ->
  let highlit := replay renders (sync true v0 r) in
  let back := sync false v highlit in
  Object3D.material (object3D highlit) = Some highlightMaterial
  /\ originalMaterial highlit = Some own
  /\ Object3D.material (object3D back) = Some (touch own)
  /\ originalMaterial back = None
  /\ meshVisible back = v
  /\ Object3D.set_material None (object3D back)
     = Object3D.set_material None (object3D r).
Proof.
  intros Hown Hnone Hall highlit back.
  destruct (replay_highlighted renders Hall (sync true v0 r) own highlightMaterial)
    as (Hkept & Hmat & Hrest).
  { unfold sync. rewrite Hown, Hnone. reflexivity. }
  { unfold sync. rewrite Hown. reflexivity. }
  fold highlit in Hkept, Hmat, Hrest.
  assert (Hshown : Object3D.material (object3D highlit) = Some highlightMaterial).
  { rewrite Hmat. now destruct renders. }
  assert (Hback : back
                  = mkRendered
                      (Object3D.set_material (Some (touch own)) (object3D highlit))
                      None v).
  { subst back. unfold sync. now rewrite Hshown, Hkept. }
  rewrite Hback. simpl. repeat split; auto.
  transitivity (Object3D.set_material None (object3D highlit)); [reflexivity|].
  rewrite Hrest. unfold sync. rewrite Hown. reflexivity.
Qed.

Lemma highlight_round_trip_witness :
  Object3D.material
    (object3D
       (sync false true
             (replay [(true, true); (true, false)]
                     (sync true true Fixtures.rendered))))
  = Some (touch (SingleMaterial Sample.steel)).
Proof.
  refine (proj1 (proj2 (proj2 (highlight_round_trip
                                 Fixtures.rendered (SingleMaterial Sample.steel)
                                 [(true, true); (true, false)] true true
                                 eq_refl eq_refl _)))).
  repeat constructor.
Defined.

End Highlighting.

(** ** What the registry holds *)

Section RegistryShape.

Import Decoder.

Lemma loaded_shape decoded result progress :
  loadIFCFile decoded = inr (result, progress) ->
  Forall Loaded.wellBuilt (components result).
Proof.
  destruct decoded as [message|message|m]; simpl; try discriminate.
  unfold extract. destruct (expressIDAttr m) as [idsArray|] eqn:Hattr; [|discriminate].
  pose proof (processIDs_build m (collectIDs idsArray) (mkProgress [] 0 0)
                               (Forall_nil _)) as Hbuilt.
  fold (processIDs m (collectIDs idsArray)) in Hbuilt.
  pose proof (extracted_ids m (collectIDs idsArray)) as Hids.
  destruct (collectIDs_distinct_positive idsArray) as (_ & Hpos).
  destruct (extracted (processIDs m (collectIDs idsArray))) as [|c cs] eqn:E;
    [discriminate|].
  intro H. injection H as <- _. cbn [components].
  apply Forall_forall. intros d Hd.
  rewrite Forall_forall in Hbuilt.
  destruct (Hbuilt d Hd)
    as (subset & props & t & _ & _ & _ & Hmesh & Hinit & _ & _ & Hname & Htype).
  assert (Hin : In (id d) (ids (c :: cs))) by (unfold ids; now apply in_map).
  rewrite Hids in Hin. apply filter_In in Hin as (Hin & _). apply Hpos in Hin.
  unfold Loaded.wellBuilt. rewrite Hmesh, Hinit, Hname, Htype.
  repeat split; try discriminate; try tauto.
  - now apply or_else_not_empty.
  - apply typeName_not_empty.
Qed.

Lemma wellBuilt_map (f : Component -> Component) cs :
  (forall c, Loaded.wellBuilt c -> Loaded.wellBuilt (f c)) ->
  Forall Loaded.wellBuilt cs -> Forall Loaded.wellBuilt (map f cs).
Proof.
  intros Hf H. induction H; simpl; constructor; auto.
Qed.

Lemma wellBuilt_loaded st decoded :
  Forall Loaded.wellBuilt (Session.registry st) ->
  Forall Loaded.wellBuilt
         (Session.registry (Upload.loaded st (loadIFCFile decoded))).
Proof.
  intro H. destruct st as [app viewer]. unfold Upload.loaded.
  destruct (loadIFCFile decoded) as [message|[result progress]] eqn:E; [exact H|].
  unfold Session.registry. simpl. eapply loaded_shape. exact E.
Qed.

Lemma handle_wellBuilt e st :
  Forall Loaded.wellBuilt (Session.registry st) ->
  Forall Loaded.wellBuilt (Session.registry (Session.handle e st)).
Proof.
  intro H. destruct st as [app viewer]. unfold Session.registry in *. simpl in H.
  destruct e; simpl.
  - apply wellBuilt_map; [|exact H]. intros c Hc.
    now destruct (Z.eqb (id c) componentId).
  - apply wellBuilt_map; [|exact H]. intros c Hc.
    now destruct (Z.eqb (id c) componentId).
  - unfold sceneClick, handleSceneClick.
    destruct intersects as [|hit rest]; [exact H|].
    destruct (Object3D.expressID (object hit)) as [expressID|]; [|exact H].
    destruct (Z.eqb expressID 0); [exact H|]. simpl.
    apply wellBuilt_map; [|exact H]. now intros c Hc.
  - apply wellBuilt_map; [|exact H]. now intros c Hc.
  - apply wellBuilt_map; [|exact H]. intros c Hc.
    now destruct (Z.eqb (id c) rowId).
  - exact H.
  - constructor.
  - destruct files as [file|]; simpl; [|exact H].
    destruct (Str.endsWith (Str.toLowerCase (Upload.fileName file)) ".ifc"); simpl;
      [|exact H].
    destruct (Z.ltb Upload.maxSize (Upload.size file)); simpl; [exact H|].
    apply (wellBuilt_loaded (app, _)). exact H.
  - apply (wellBuilt_loaded (app, _)). exact H.
  - constructor.
Qed.

(** X23.  In every state a session reaches, every component of the
    registry has a positive id, a mesh, an initial position, a non-empty name
    and a non-empty type: components enter the registry from [loadIFCFile]
    only, and the handlers rewrite nothing but [visible] and [highlighted].
    So the explode loop's guard on mesh and initial position never skips a
    registry component for lack of them. *)
Theorem registry_components_are_well_built (events : list Session.Event) :
  Forall Loaded.wellBuilt (Session.registry (Session.run events))
  /\ Forall (fun c =>
               Explode.explodable c = None ->
               exists m, mesh c = Some m /\ Object3D.geometry m = None)
            (Session.registry (Session.run events)).
Proof.
  assert (Hall : Forall Loaded.wellBuilt (Session.registry (Session.run events))).
  { unfold Session.run.
    assert (Hgen : forall st,
               Forall Loaded.wellBuilt (Session.registry st) ->
               Forall Loaded.wellBuilt
                      (Session.registry
                         (fold_left (fun st e => Session.handle e st) events st))).
    { induction events as [|e events IH]; intros st H; simpl; [exact H|].
      apply IH. now apply handle_wellBuilt. }
    apply Hgen. constructor. }
  split; [exact Hall|].
  eapply Forall_impl; [|exact Hall].
  intros c (_ & Hmesh & Hinit & _). unfold Explode.explodable.
  destruct (mesh c) as [m|]; [|contradiction].
  destruct (initialPosition c); [|contradiction].
  destruct (Object3D.geometry m) eqn:Hg; [intro Hx; discriminate Hx|].
  intros _. exists m. split; [reflexivity|exact Hg].
Qed.

End RegistryShape.

(** ** File names *)

Section FileNames.

Import Upload.

Local Open Scope string_scope.

Lemma toLowerCase_app a b :
  Str.toLowerCase (a ++ b) = Str.toLowerCase a ++ Str.toLowerCase b.
Proof. induction a as [|c a IH]; simpl; [reflexivity|now rewrite IH]. Qed.

Lemma length_app a b : String.length (a ++ b) = String.length a + String.length b.
Proof. induction a as [|c a IH]; simpl; [reflexivity|now rewrite IH]. Qed.

Lemma substring_whole s : substring 0 (String.length s) s = s.
Proof. induction s as [|c s IH]; simpl; [reflexivity|now rewrite IH]. Qed.

Lemma substring_suffix a b :
  substring (String.length a) (String.length b) (a ++ b) = b.
Proof. induction a as [|c a IH]; simpl; [apply substring_whole|exact IH]. Qed.

Lemma endsWith_app a b : Str.endsWith (a ++ b) b = true.
Proof.
  unfold Str.endsWith. rewrite length_app.
  replace (String.length a + String.length b - String.length b)
    with (String.length a) by lia.
  rewrite substring_suffix, String.eqb_refl.
  destruct (Nat.leb_spec (String.length b) (String.length a + String.length b));
    [reflexivity|lia].
Qed.

(** X24.  The extension test ignores letter case: a file named with any
    base name followed by [.ifc] in any mix of upper and lower case, and of a
    size up to 100 MB, reaches [loadIFCFile]. *)
Theorem extension_is_case_insensitive
        (base extension : string) (bytes : Z) (st : App.state * Viewer) :
  Str.toLowerCase extension = ".ifc" ->
  (bytes <= 100 * 1024 * 1024)%Z ->
  Str.endsWith (Str.toLowerCase (base ++ extension)) ".ifc" = true
  /\ decodes (handleFileUpload (Some (mkFile (base ++ extension) bytes)) st) = true.
Proof.
  intros Hext Hsize.
  assert (Hends : Str.endsWith (Str.toLowerCase (base ++ extension)) ".ifc" = true).
  { rewrite toLowerCase_app, Hext. apply endsWith_app. }
  split; [exact Hends|]. destruct st as [app viewer].
  unfold handleFileUpload. cbn [fileName size]. rewrite Hends. simpl negb. cbv iota.
  unfold maxSize. destruct (Z.ltb_spec (100 * 1024 * 1024) bytes); [lia|reflexivity].
Qed.

Lemma extension_is_case_insensitive_witness :
  decodes (handleFileUpload (Some (mkFile ("Office Block" ++ ".IfC") 4096))
                            Session.initial)
  = true.
Proof.
  refine (proj2 (extension_is_case_insensitive
                   "Office Block" ".IfC" 4096 Session.initial eq_refl _)).
  simpl. lia.
Defined.

End FileNames.

(** ** Meshes the clipping effect does not reach *)

Section ClipLeaks.

Import ClippingPlanes.
Import IFCModel.

Lemma sameProps_refl p : sameProps p p = true.
Proof.
  unfold sameProps, JS.same_value.
  rewrite Bool.eqb_reflx, String.eqb_refl.
  assert (H : PrimFloat.Leibniz.eqb (splitPosition p) (splitPosition p) = true).
  { now apply FloatAxioms.Leibniz.eqb_spec. }
  now rewrite H.
Qed.

Lemma visit_mesh planes o slot :
  Object3D.isMesh o = true -> Object3D.material o = Some slot ->
  visit planes o
  = Object3D.set_material (Some (forEachMaterial (assign planes) slot)) o.
Proof. intros Hmesh Hmat. unfold visit. now rewrite Hmesh, Hmat. Qed.

Lemma assigned_carry planes slot :
  Forall (fun mat => Material.clippingPlanes mat = Some planes)
         (materialsOf (forEachMaterial (assign planes) slot)).
Proof.
  rewrite materialsOf_forEach. apply Forall_forall. intros mat Hmat.
  apply in_map_iff in Hmat as (m0 & <- & _). reflexivity.
Qed.

Lemma touch_keeps_planes slot :
  map Material.clippingPlanes (materialsOf (touch slot))
  = map Material.clippingPlanes (materialsOf slot).
Proof. now destruct slot. Qed.

(** C7.  The code at the failing inputs.  With split mode on: components
    that arrive in the scene while the props stay as they are come out of the
    render as they arrived (the effect does not run: its dependencies are the
    mode, the position, the axis and the scene object), so their materials
    carry the planes they came with, none for a fresh mesh; a mesh highlighted
    while split mode is on shows the highlight material, which has no clipping
    plane; and when split mode is then switched off and the highlight removed,
    the mesh gets back its own material with the plane still on every one of
    its materials. *)
Theorem clip_misses_meshes_arriving_or_swapped_while_active
        (on : Props) (scene : Scene) (arrived : list Component)
        (r : Rendered) (own : MaterialSlot) (v : bool) :
  isSplitMode on = true ->
  Object3D.isMesh (object3D r) = true ->
  Object3D.material (object3D r) = Some own ->
  originalMaterial r = None ->
  let off := mkProps false (splitPosition on) (clipAxis on) in
  let clipped := Interplay.updateRendered off on r in
  let highlit := sync true v clipped in
  let switchedOff := Interplay.updateRendered on off highlit in
  let back := sync false v switchedOff in
  components (update on on (Interplay.render arrived (effect on scene))) = arrived
  /\ Object3D.material (object3D highlit) = Some highlightMaterial
  /\ Forall (fun mat => Material.clippingPlanes mat = None)
            (materialsOf highlightMaterial)
  /\ exists kept,
      Object3D.material (object3D back) = Some kept
      /\ List.length (materialsOf kept) = List.length (materialsOf own)
      /\ Forall (fun mat => Material.clippingPlanes mat = Some [planeOf on])
                (materialsOf kept).
Proof.
  intros Hon Hmesh Hown Hnone off clipped highlit switchedOff back.
  assert (Hoff_on : sameProps off on = false).
  { apply sameProps_mode. subst off. simpl. rewrite Hon. discriminate. }
  assert (Hon_off : sameProps on off = false).
  { apply sameProps_mode. subst off. simpl. rewrite Hon. discriminate. }
  assert (Hclipped :
            clipped
            = mkRendered
                (Object3D.set_material
                   (Some (forEachMaterial (assign [planeOf on]) own)) (object3D r))
                None (meshVisible r)).
  { subst clipped. unfold Interplay.updateRendered. rewrite Hoff_on, Hon.
    subst off. cbn [isSplitMode]. unfold Interplay.traverseRendered.
    now rewrite (visit_mesh _ _ own Hmesh Hown), Hnone. }
  assert (Hhighlit :
            highlit
            = mkRendered
                (Object3D.set_material (Some highlightMaterial) (object3D r))
                (Some (forEachMaterial (assign [planeOf on]) own)) v).
  { subst highlit. rewrite Hclipped. unfold sync. simpl.
    now destruct (object3D r). }
  split.
  { unfold update. now rewrite sameProps_refl. }
  split; [now rewrite Hhighlit|].
  split; [repeat constructor|].
  exists (touch (forEachMaterial (assign [planeOf on]) own)).
  split; [|split].
  - subst back switchedOff. rewrite Hhighlit.
    unfold Interplay.updateRendered. rewrite Hon_off, Hon.
    subst off. cbn [isSplitMode]. unfold Interplay.traverseRendered, sync.
    cbn [object3D originalMaterial meshVisible].
    destruct (object3D r) as [isMesh pos geo mat eid]. simpl in Hmesh. subst isMesh.
    reflexivity.
  - rewrite <- (length_map Material.clippingPlanes), touch_keeps_planes, length_map.
    now rewrite materialsOf_forEach, length_map.
  - pose proof (assigned_carry [planeOf on] own) as H.
    apply Forall_forall. intros mat Hmat.
    assert (Hin : In (Material.clippingPlanes mat)
                     (map Material.clippingPlanes
                          (materialsOf (touch (forEachMaterial (assign [planeOf on]) own)))))
      by now apply in_map.
    rewrite touch_keeps_planes in Hin. apply in_map_iff in Hin as (m0 & Hm0 & Hin).
    rewrite Forall_forall in H. rewrite <- Hm0. now apply H.
Qed.

Lemma clip_misses_meshes_arriving_or_swapped_while_active_witness :
  map clippable
      (components
         (update Sample.splitAtMiddle Sample.splitAtMiddle
                 (Interplay.render [Sample.wall; Sample.slab]
                                   (effect Sample.splitAtMiddle Fixtures.emptyCanvas))))
  = [[Sample.steel]; [Sample.steel]]
  /\ Material.clippingPlanes Sample.steel = None.
Proof.
  split; [|reflexivity].
  rewrite (proj1 (clip_misses_meshes_arriving_or_swapped_while_active
                    Sample.splitAtMiddle Fixtures.emptyCanvas
                    [Sample.wall; Sample.slab] Fixtures.rendered
                    (SingleMaterial Sample.steel) true
                    eq_refl eq_refl eq_refl eq_refl)).
  reflexivity.
Defined.

End ClipLeaks.
